(** * freesurfer_lgi: the longitudinal LGI wrapper [run.py]

    A shallow embedding of [run.py] and the properties of its orchestration
    logic.  The script is a sequence of effects on three pieces of global
    state: the process environment [os.environ], the file system and the
    standard output.  They are threaded through a state-and-exception monad.
    The external programs started with [Popen] are described by an oracle
    [spawn], a variable of the section that holds the script.

    Modelling boundaries, stated once:
    - a Python [str] is a [string]; the text a child writes is taken to be
      valid UTF-8, so that [str(line, 'utf-8')] does not raise;
    - paths are compared as strings, the way the script builds them;
    - [args.output_dir] is absolute and normalised, so [os.path.abspath] is the
      identity on it, and it has no glob metacharacter;
    - glob patterns use [*], [?] and literal characters; bracket classes are
      not modelled (a BIDS label is alphanumeric). *)

From Stdlib Require Import Ascii.
From stdpp Require Import gmap strings list sorting pretty.

(** ** Python strings *)

Module Str.

(** [s.split(sep)] for a non-empty [sep]: the pieces between the
    non-overlapping occurrences of [sep], scanned from the left. [skip]
    counts the characters of a separator still to be passed over. *)
Fixpoint split_go (sep s : string) (skip : nat) : list string :=
  match s with
  | "" => [""]
  | String c s' =>
      match skip with
      | S k => split_go sep s' k
      | O =>
          if String.prefix sep s
          then "" :: split_go sep s' (String.length sep - 1)
          else match split_go sep s' 0 with
               | piece :: pieces => String c piece :: pieces
               | [] => [String c ""]
               end
      end
  end.

Definition split (sep s : string) : list string := split_go sep s 0.

(** [l[0]] and [l[-1]] on the result of a split, which is never empty. *)
Definition first_item (l : list string) : string := default "" (head l).
Definition last_item (l : list string) : string := default "" (last l).

(** [sep.join(l)] *)
Definition join (sep : string) (l : list string) : string :=
  String.concat sep l.

(** [s * n] *)
Fixpoint repeat (s : string) (n : nat) : string :=
  match n with
  | O => ""
  | S k => s +:+ repeat s k
  end.

(** [s.startswith(p)] and [s.endswith("/")] *)
Definition startswith (s p : string) : bool := String.prefix p s.

Fixpoint endswith_char (c : ascii) (s : string) : bool :=
  match s with
  | "" => false
  | String a "" => bool_decide (a = c)
  | String _ s' => endswith_char c s'
  end.

(** [p in s] *)
Fixpoint contains (p s : string) : bool :=
  String.prefix p s ||
  match s with
  | "" => false
  | String _ s' => contains p s'
  end.

(** The part of [s] after the last [c], when there is one: [s[s.rfind(c)+1:]]. *)
Fixpoint after_last (c : ascii) (s : string) : option string :=
  match s with
  | "" => None
  | String a s' =>
      match after_last c s' with
      | Some t => Some t
      | None => if bool_decide (a = c) then Some s' else None
      end
  end.

(** [repr] of a string and of a list of strings, as [print] and [%s] show
    them; exact for strings without quotes, backslashes and control
    characters. *)
Definition repr (s : string) : string := "'" +:+ s +:+ "'".
Definition repr_list (l : list string) : string :=
  "[" +:+ join ", " (map repr l) +:+ "]".

(** ["%d" % z] *)
Definition of_int (z : Z) : string := pretty z.

Definition newline : string := String "010" "".

(** [sorted(l)] on strings: ascending in the order of the code points. *)
Definition sorted (l : list string) : list string := merge_sort String.le l.

End Str.

(** ** [os.path] and [glob] over a file system *)

Inductive node :=
  | File
  | Dir (names : list string).

(** The file system: which paths exist, and what a directory lists. The
    names a directory lists and the paths that exist are both given by the
    map; nothing ties one to the other. *)
Abbreviation filesystem := (gmap string node).

Module Path.

(** [posixpath.join(a, b)] *)
Definition join (a b : string) : string :=
  if Str.startswith b "/" then b
  else if bool_decide (a = "") || Str.endswith_char "/" a then a +:+ b
  else a +:+ "/" +:+ b.

(** [posixpath.basename(p)] *)
Definition basename (p : string) : string :=
  default p (Str.after_last "/" p).

(** [os.path.exists(p)] *)
Definition exists_ (fs : filesystem) (p : string) : bool :=
  match fs !! p with
  | Some _ => true
  | None => false
  end.

(** [os.listdir(d)], empty where [glob] swallows the error. *)
Definition listdir (fs : filesystem) (d : string) : list string :=
  match fs !! d with
  | Some (Dir names) => names
  | _ => []
  end.

End Path.

Module Glob.

(** [fnmatch.fnmatch(name, pat)] for patterns of [*], [?] and literals. *)
Fixpoint fnmatch_go (pat : string) : string -> bool :=
  match pat with
  | "" => fun name => bool_decide (name = "")
  | String c pat' =>
      if bool_decide (c = "*"%char) then
        fix star (name : string) : bool :=
          fnmatch_go pat' name ||
          match name with
          | "" => false
          | String _ name' => star name'
          end
      else if bool_decide (c = "?"%char) then
        fun name =>
          match name with
          | "" => false
          | String _ name' => fnmatch_go pat' name'
          end
      else
        fun name =>
          match name with
          | "" => false
          | String d name' => bool_decide (c = d) && fnmatch_go pat' name'
          end
  end.

Definition fnmatch (name pat : string) : bool := fnmatch_go pat name.

Definition ishidden (p : string) : bool := Str.startswith p ".".

(** [glob(os.path.join(dirname, pattern))] for a [pattern] with a wildcard
    and no separator: the entries of [dirname] that match, hidden ones
    left out unless the pattern asks for them, each joined to [dirname]. *)
Definition glob (fs : filesystem) (dirname pattern : string) : list string :=
  let names := Path.listdir fs dirname in
  let names :=
    if ishidden pattern then names
    else filter (fun x => ishidden x = false) names in
  map (Path.join dirname) (filter (fun x => fnmatch x pattern = true) names).

End Glob.


(** ** The state of the process and the monad of the script *)

(** The exceptions the script can meet; all of them are instances of
    Python's [Exception]. *)
Inductive exn :=
  | Exception (msg : string)
  | OSError (msg : string)
  | KeyError (key : string).

Inductive result (A : Type) :=
  | Ok (a : A)
  | Raise (e : exn).

Arguments Ok {A} a.
Arguments Raise {A} e.

(** [popen_calls] is a ghost trace: every command handed to [Popen], with the
    environment the child received. *)
Record world := World {
  environ : gmap string string;
  fs : filesystem;
  stdout : list string;
  popen_calls : list (string * gmap string string)
}.

Definition M (A : Type) : Type := world -> result A * world.

Definition ret {A} (a : A) : M A := fun w => (Ok a, w).

Definition bind {A B} (c : M A) (k : A -> M B) : M B :=
  fun w =>
    match c w with
    | (Ok a, w') => k a w'
    | (Raise e, w') => (Raise e, w')
    end.

Definition raise {A} (e : exn) : M A := fun w => (Raise e, w).

(** [try: body except Exception: handler]; what [body] did to the world before
    it raised stays done. *)
Definition try_except {A} (body : M A) (handler : M A) : M A :=
  fun w =>
    match body w with
    | (Ok a, w') => (Ok a, w')
    | (Raise _, w') => handler w'
    end.

Declare Scope script_scope.
Delimit Scope script_scope with script.
Bind Scope script_scope with M.

Notation "x <- c ;; k" := (bind c (fun x => k))
  (at level 20, c at level 99, k at level 200, only parsing) : script_scope.
Notation "c ;; k" := (bind c (fun _ => k))
  (at level 100, k at level 200, only parsing, right associativity)
  : script_scope.

Local Open Scope script_scope.

(** [print(s)]: one entry of [stdout] per call, without the final newline. *)
Definition print (s : string) : M unit :=
  fun w =>
    (Ok tt, World (environ w) (fs w) (stdout w ++ [s]) (popen_calls w)).

Definition path_exists (p : string) : M bool :=
  fun w => (Ok (Path.exists_ (fs w) p), w).

Definition glob (dirname pattern : string) : M (list string) :=
  fun w => (Ok (Glob.glob (fs w) dirname pattern), w).

(** [os.environ[key]] *)
Definition environ_get (key : string) : M string :=
  fun w =>
    match environ w !! key with
    | Some v => (Ok v, w)
    | None => (Raise (KeyError key), w)
    end.

(** [os.environ.update(env)]: the entries of [env] win. *)
Definition environ_update (env : gmap string string) : M unit :=
  fun w => (Ok tt, World (env ∪ environ w) (fs w) (stdout w) (popen_calls w)).

(** [os.environ.pop(key, None)] *)
Definition environ_pop (key : string) : M unit :=
  fun w =>
    (Ok tt, World (delete key (environ w)) (fs w) (stdout w) (popen_calls w)).

Fixpoint for_each {A} (l : list A) (body : A -> M unit) : M unit :=
  match l with
  | [] => ret tt
  | x :: l' => body x ;; for_each l' body
  end.

(** A [for] loop whose body updates local variables of type [S]. *)
Fixpoint for_fold {A S} (l : list A) (body : A -> S -> M S) (s : S) : M S :=
  match l with
  | [] => ret s
  | x :: l' => s' <- body x s ;; for_fold l' body s'
  end.

(** ** The external programs *)

(** What [Popen] and the child give back: either the child runs to its end,
    and then [reads] are the lines [readline] returns before the end of the
    stream (decoded, the last character cut off), each with whether
    [process.poll()] already reports the exit at that moment, [returncode]
    is the exit status and [fs'] the file system the child leaves; or
    [Popen] itself raises. *)
Inductive popen :=
  | Child (reads : list (string * bool)) (returncode : Z) (fs' : filesystem)
  | SpawnError (msg : string).

(** The parsed command line. [choices=['participant']] leaves one value for
    the analysis level. *)
Inductive level := participant.

Record arguments := Arguments_ {
  bids_dir : string;
  output_dir : string;
  analysis_level : level;
  participant_label : option (list string);
  n_cpus : Z;
  license_key : string
}.

(** ** The script *)

(** [tp.split("_")[-1].split("-")[-1]] *)
Definition tp_label (tp : string) : string :=
  Str.last_item (Str.split "-" (Str.last_item (Str.split "_" tp))).

(** ["sub-{sub}_ses-{ses}.long.sub-{sub}".format(sub=sub, ses=ses)] *)
Definition long_name (sub ses : string) : string :=
  "sub-" +:+ sub +:+ "_ses-" +:+ ses +:+ ".long.sub-" +:+ sub.

(** [os.path.join(output_dir, long_name, "surf")] *)
Definition surf_dir (output_dir subject_label ses : string) : string :=
  Path.join (Path.join output_dir (long_name subject_label ses)) "surf".

(** [l.split(".long.")[0]] *)
Definition timepoint_of (l : string) : string :=
  Str.first_item (Str.split ".long." l).

(** Lines 94 to 96: the timepoints of a subject. *)
Definition discover (fs : filesystem) (output_dir subject_label : string)
  : list string :=
  let long_subjects :=
    Glob.glob fs output_dir ("sub-" +:+ subject_label +:+ "*.long.*") in
  let long_subjects := map Path.basename long_subjects in
  Str.sorted (map timepoint_of long_subjects).

(** Lines 64 to 66: the subjects found in the output directory. The order of
    [list(set(...))] is the order of the set's enumeration. *)
Definition subjects_of (fs : filesystem) (output_dir : string) : list string :=
  let subject_dirs := Glob.glob fs output_dir "sub-*" in
  elements (list_to_set (C := gset string)
    (map (fun subject_dir =>
            Str.last_item (Str.split "-"
              (Str.first_item (Str.split "_" (Path.basename subject_dir)))))
         subject_dirs)).

(** [recon-all -long {tp} {base} -sd {output_dir} -localGI -parallel -openmp {n_cpus}] *)
Definition recon_all (tp subject_label output_dir : string) (n_cpus : Z)
  : string :=
  "recon-all -long " +:+ tp +:+ " " +:+ ("sub-" +:+ subject_label) +:+
  " -sd " +:+ output_dir +:+ " -localGI -parallel -openmp " +:+
  Str.of_int n_cpus.

Section Script.

(** The child a command gives, from the environment it is started with and
    the file system it finds. *)
Variable spawn : string -> gmap string string -> filesystem -> popen.

Variable args : arguments.

(** [Popen(command, ..., shell=True, env=merged_env)], where [merged_env] is
    [os.environ] itself. The child's effect on the file system is in place
    when the read loop ends; nothing looks at the file system before. *)
Definition Popen (command : string) : M (list (string * bool) * Z) :=
  fun w =>
    let calls := popen_calls w ++ [(command, environ w)] in
    match spawn command (environ w) (fs w) with
    | Child reads returncode fs' =>
        (Ok (reads, returncode), World (environ w) fs' (stdout w) calls)
    | SpawnError msg =>
        (Raise (OSError msg), World (environ w) (fs w) (stdout w) calls)
    end.

(** Lines 19 to 24. After the last line, [readline] returns the empty
    string and the child has exited. *)
Fixpoint read_loop (reads : list (string * bool)) : M unit :=
  match reads with
  | [] => print ""
  | (line, exited) :: reads' =>
      print line ;;
      if bool_decide (line = "") && exited then ret tt
      else read_loop reads'
  end.

(** Lines 13 to 26. *)
Definition run (command : string) (env : gmap string string)
    (ignore_errors : bool) : M unit :=
  environ_update env ;;
  environ_pop "DEBUG" ;;
  process <- Popen command ;;
  read_loop process.1 ;;
  if negb (bool_decide (process.2 = 0%Z)) && negb ignore_errors
  then raise (Exception ("Non zero return code: " +:+ Str.of_int process.2))
  else ret tt.

(** Lines 106 to 151: the body of the loop over the timepoints, on the lists
    [good_tps] and [bad_tps]. *)
Definition timepoint (subject_label tp : string)
    (tps : list string * list string) : M (list string * list string) :=
  let good_tps := tps.1 in
  let bad_tps := tps.2 in
  let tp_label := tp_label tp in
  let surf_dir := surf_dir (output_dir args) subject_label tp_label in
  lh <- path_exists (Path.join surf_dir "lh.pial_lgi") ;;
  rh <- path_exists (Path.join surf_dir "rh.pial_lgi") ;;
  if lh && rh then
    print ("lh.pial_lgi and rh.pial_lgi exist for " +:+ subject_label +:+
           " " +:+ tp_label +:+ ". NOT recomputing") ;;
    ret (good_tps, bad_tps)
  else
    let cmd :=
      recon_all tp subject_label (output_dir args) (n_cpus args) in
    print (Str.join " " [Str.newline +:+ Str.newline; Str.repeat "*" 30;
                         Str.newline; "running long LGI for " +:+ tp]) ;;
    print cmd ;;
    tps' <- try_except
      (run cmd ∅ false ;;
       lh <- path_exists (Path.join surf_dir "lh.pial_lgi") ;;
       rh <- path_exists (Path.join surf_dir "rh.pial_lgi") ;;
       let img_not_found :=
         (if negb lh then ["lh.pial_lgi"] else []) ++
         (if negb rh then ["rh.pial_lgi"] else []) in
       if negb (bool_decide (img_not_found = [])) then
         print ("pial_lgi not found after calc for " +:+ subject_label +:+
                " " +:+ tp_label +:+ ": " +:+ Str.join " " img_not_found +:+
                ". Try other timpoints and raiser Error later.") ;;
         ret (good_tps, bad_tps ++ [tp_label])
       else
         print ("pial_lgi and rh.pial_lgi calculated for " +:+
                subject_label +:+ " " +:+ tp_label) ;;
         ret (good_tps ++ [tp_label], bad_tps))
      (print ("Something failed with tp " +:+ tp_label +:+
              ". Try other timepoints and raise Error later.") ;;
       ret (good_tps, bad_tps ++ [tp_label])) ;;
    (if negb (bool_decide (tps'.1 = [])) then
       print ("Timpoints succesfully processed for " +:+ subject_label +:+
              ": " +:+ Str.join " " tps'.1)
     else ret tt) ;;
    if negb (bool_decide (tps'.2 = [])) then
      raise (Exception ("Timpoints failed for " +:+ subject_label +:+ ": " +:+
                        Str.join " " tps'.2))
    else
      print "Everything seems fine" ;;
      ret tps'.

(** Line 105: [for tp in timepoints]. *)
Definition timepoints_loop (subject_label : string)
    (timepoints : list string) : M (list string * list string) :=
  for_fold timepoints (timepoint subject_label) ([], []).

(** Lines 94 to 151: the body of the loop over the subjects. *)
Definition subject (subject_label : string) : M unit :=
  timepoints <-
    (fun w => (Ok (discover (fs w) (output_dir args) subject_label), w)) ;;
  if bool_decide (timepoints = []) then
    raise (Exception ("No timepoints found. Something went wrong: " +:+
                      subject_label))
  else
    print ("Timepoints for subject found " +:+ subject_label +:+ " " +:+
           Str.repr_list timepoints) ;;
    timepoints_loop subject_label timepoints ;;
    ret tt.

(** Lines 78 to 90: one of the three shared templates. *)
Definition provide (asset : string) (announce : bool) : M unit :=
  present <- path_exists (Path.join (output_dir args) asset) ;;
  if negb present then
    (if announce
     then print ("try to copy " +:+ asset +:+ " folder " +:+ output_dir args)
     else ret tt) ;;
    subjects_dir <- environ_get "SUBJECTS_DIR" ;;
    run ("cp -rf " +:+ Path.join subjects_dir asset +:+ " " +:+
         Path.join (output_dir args) asset) ∅ false
  else ret tt.

(** Lines 58 to 151, after the arguments are parsed. *)
Definition main : M unit :=
  subjects_to_analyze <-
    (match participant_label args with
     | Some (label :: labels) => ret (label :: labels)
     | _ => fun w => (Ok (subjects_of (fs w) (output_dir args)), w)
     end) ;;
  match analysis_level args with
  | participant =>
      c <- glob (output_dir args) "*" ;;
      print ("output_dir content: " +:+ Str.repr_list c) ;;
      if bool_decide (c = []) then
        raise (Exception ("output dir empty " +:+ output_dir args))
      else
        provide "fsaverage" true ;;
        provide "lh.EC_average" false ;;
        provide "rh.EC_average" false ;;
        for_each subjects_to_analyze subject
  end.

End Script.

(** ** Auxiliary definitions for the statements *)

(** The lines the read loop prints. *)
Fixpoint printed (reads : list (string * bool)) : list string :=
  match reads with
  | [] => [""]
  | (line, exited) :: reads' =>
      line :: (if bool_decide (line = "") && exited then [] else printed reads')
  end.

(** The environment [run] hands to the child, and leaves in [os.environ]. *)
Definition merged_env (env environ : gmap string string)
  : gmap string string :=
  delete "DEBUG" (env ∪ environ).

(** What a finished child makes [run] return. *)
Definition verdict (returncode : Z) (ignore_errors : bool) : result unit :=
  if negb (bool_decide (returncode = 0%Z)) && negb ignore_errors
  then Raise (Exception ("Non zero return code: " +:+ Str.of_int returncode))
  else Ok tt.

(** The completion test of lines 110 and 111. *)
Definition both_exist (fs : filesystem) (surf_dir : string) : bool :=
  Path.exists_ fs (Path.join surf_dir "lh.pial_lgi") &&
  Path.exists_ fs (Path.join surf_dir "rh.pial_lgi").

(** A computation that fails: [Popen] raises, the child exits with a status
    other than zero, or it leaves one of the two files missing. *)
Definition computation_fails (p : popen) (surf_dir : string) : Prop :=
  match p with
  | SpawnError _ => True
  | Child _ returncode fs' =>
      returncode ≠ 0%Z ∨ both_exist fs' surf_dir = false
  end.

(** The entries of the output directory that [discover] keeps for a subject. *)
Definition long_entries (fs : filesystem) (output_dir subject_label : string)
  : list string :=
  filter (fun x => Glob.fnmatch x ("sub-" +:+ subject_label +:+ "*.long.*") = true)
    (filter (fun x => Glob.ishidden x = false) (Path.listdir fs output_dir)).

(** The form the claim gives to a timepoint: [sub-<label>_ses-<ses>]. *)
Definition session_form (subject_label tp : string) : bool :=
  Str.startswith tp ("sub-" +:+ subject_label +:+ "_ses-").

(** ** A small output directory

    Subject 01 has its first session computed and its second not; subject 03
    has two sessions to compute; subject 05 has two entries for one
    session, one of them under another template name; there is no subject 02. *)
Module Demo.

Definition surf (name : string) : list (string * node) :=
  [ ("/out/" +:+ name, Dir ["surf"]);
    ("/out/" +:+ name +:+ "/surf", Dir []) ].

Definition lgi (name : string) : list (string * node) :=
  [ ("/out/" +:+ name +:+ "/surf/lh.pial_lgi", File);
    ("/out/" +:+ name +:+ "/surf/rh.pial_lgi", File) ].

Definition fs0 : filesystem :=
  list_to_map
    ([ ("/out", Dir [ "fsaverage"; "lh.EC_average"; "rh.EC_average";
                      "sub-01_ses-1.long.sub-01"; "sub-01_ses-2.long.sub-01";
                      "sub-03_ses-1.long.sub-03"; "sub-03_ses-2.long.sub-03";
                      "sub-05_ses-1.long.sub-05";
                      "sub-05_ses-1.long.sub-05_base" ]);
       ("/out/fsaverage", Dir []);
       ("/out/lh.EC_average", Dir []);
       ("/out/rh.EC_average", Dir []) ]
     ++ surf "sub-01_ses-1.long.sub-01" ++ lgi "sub-01_ses-1.long.sub-01"
     ++ surf "sub-01_ses-2.long.sub-01"
     ++ surf "sub-03_ses-1.long.sub-03"
     ++ surf "sub-03_ses-2.long.sub-03"
     ++ surf "sub-05_ses-1.long.sub-05"
     ++ surf "sub-05_ses-1.long.sub-05_base").

(** An output directory that is there and holds nothing. *)
Definition fs_empty : filesystem := {[ "/out" := Dir [] ]}.

Definition environ0 : gmap string string :=
  list_to_map [ ("SUBJECTS_DIR", "/opt/freesurfer/subjects");
                ("DEBUG", "1"); ("HOME", "/root") ].

Definition w0 : world := World environ0 fs0 [] [].

Definition args0 (labels : list string) : arguments :=
  Arguments_ "/bids" "/out" participant (Some labels) 2 "key".

(** Every command exits with status 1 and writes nothing. *)
Definition spawn_fail (command : string) (env : gmap string string)
    (fs : filesystem) : popen :=
  Child [("recon-all exited with ERRORS", true)] 1 fs.

(** The first session of subject 03 is computed, every other command
    exits with status 1. *)
Definition spawn_first (command : string) (env : gmap string string)
    (fs : filesystem) : popen :=
  if bool_decide (command = recon_all "sub-03_ses-1" "03" "/out" 2)
  then Child [("recon-all finished without error", true)] 0
         (list_to_map (lgi "sub-03_ses-1.long.sub-03") ∪ fs)
  else Child [("recon-all exited with ERRORS", true)] 1 fs.

End Demo.

(** ** Invariants of computations *)

(** [c] keeps [Q]: whatever [c] returns or raises, [Q] holds of the world it
    leaves when [Q] held of the world it started in. *)
Definition preserves {A} (Q : world -> Prop) (c : M A) : Prop :=
  forall w, Q w -> Q (c w).2.

(** The commands the script builds. *)
Definition script_command (command : string) : Prop :=
  String.prefix "cp -rf " command = true ∨
  String.prefix "recon-all -long " command = true.

(** The subjects the script goes through, lines 58 to 66. *)
Definition subjects_to_analyze (args : arguments) (fs : filesystem)
  : list string :=
  match participant_label args with
  | Some (label :: labels) => label :: labels
  | _ => subjects_of fs (output_dir args)
  end.

(** ** Two more output directories *)
Module Demo2.

(** Subject 01 is there, the templates are not yet. *)
Definition fs_fresh : filesystem :=
  list_to_map
    ([ ("/out", Dir [ "sub-01_ses-1.long.sub-01" ]) ]
     ++ Demo.surf "sub-01_ses-1.long.sub-01").


End Demo2.

(** A label without any of the characters the names are cut at. *)
Definition plain_label (label : string) : Prop :=
  Str.contains "_" label = false ∧
  Str.contains "-" label = false ∧
  Str.contains "." label = false.

(** A label the glob pattern takes as it is written: no bracket class opens
    in it and no path separator cuts it. *)
Definition glob_plain (label : string) : Prop :=
  Str.contains "[" label = false ∧ Str.contains "/" label = false.

(** ** An output directory with a session label that has a [-] *)
Module Demo3.

(** Subject 09 has one session, [pre-op], and it is computed. *)
Definition fs_preop : filesystem :=
  list_to_map
    ([ ("/out", Dir [ "fsaverage"; "lh.EC_average"; "rh.EC_average";
                      "sub-09_ses-pre-op.long.sub-09" ]);
       ("/out/fsaverage", Dir []);
       ("/out/lh.EC_average", Dir []);
       ("/out/rh.EC_average", Dir []) ]
     ++ Demo.surf "sub-09_ses-pre-op.long.sub-09"
     ++ Demo.lgi "sub-09_ses-pre-op.long.sub-09").

Definition w_preop : world := World Demo.environ0 fs_preop [] [].

End Demo3.

(** * Properties *)

(** ** The monad's loops and the command-execution primitive *)

Lemma read_loop_eq reads w :
  read_loop reads w =
  (Ok tt, World (environ w) (fs w) (stdout w ++ printed reads) (popen_calls w)).
Proof.
  revert w. induction reads as [|[line exited] reads IH]; intros w; [done|].
  cbn [read_loop printed]. unfold bind at 1, print at 1.
  destruct (bool_decide (line = "") && exited).
  - done.
  - rewrite IH. cbn. by rewrite <- app_assoc.
Qed.

Lemma run_eq spawn command env ignore_errors w :
  run spawn command env ignore_errors w =
  let e := merged_env env (environ w) in
  let calls := popen_calls w ++ [(command, e)] in
  match spawn command e (fs w) with
  | Child reads returncode fs' =>
      (verdict returncode ignore_errors,
       World e fs' (stdout w ++ printed reads) calls)
  | SpawnError msg => (Raise (OSError msg), World e (fs w) (stdout w) calls)
  end.
Proof.
  unfold run, bind, environ_update, environ_pop, Popen, merged_env, verdict.
  cbn. destruct (spawn _ _ _) as [reads rc fs'|msg]; [|done].
  rewrite read_loop_eq. cbn.
  by destruct (negb (bool_decide (rc = 0%Z)) && negb ignore_errors).
Qed.

Lemma merged_env_lookup env environ k :
  merged_env env environ !! k =
  if bool_decide (k = "DEBUG") then None
  else match env !! k with
       | Some v => Some v
       | None => environ !! k
       end.
Proof.
  unfold merged_env. case_bool_decide as Hk.
  - subst k. apply lookup_delete_eq.
  - rewrite lookup_delete_ne by done. rewrite lookup_union.
    destruct (env !! k), (environ !! k); done.
Qed.

Lemma merged_env_empty environ :
  merged_env ∅ environ = delete "DEBUG" environ.
Proof. unfold merged_env. by rewrite (left_id_L ∅ (∪)). Qed.

Lemma merged_env_again environ :
  merged_env ∅ (delete "DEBUG" environ) = delete "DEBUG" environ.
Proof. rewrite merged_env_empty. apply delete_delete_eq. Qed.

(** C3: when the child runs to its end, [run] raises the execution error that
    carries the exit status exactly when the status is not zero and
    [ignore_errors] is not set, and returns normally exactly when the status
    is zero or [ignore_errors] is set. *)
Theorem run_raises_iff spawn command env ignore_errors w reads returncode fs'
  (Hchild : spawn command (merged_env env (environ w)) (fs w)
            = Child reads returncode fs') :
  ((run spawn command env ignore_errors w).1
     = Raise (Exception ("Non zero return code: " +:+ Str.of_int returncode))
   ↔ returncode ≠ 0%Z ∧ ignore_errors = false) ∧
  ((run spawn command env ignore_errors w).1 = Ok tt
   ↔ returncode = 0%Z ∨ ignore_errors = true).
Proof.
  rewrite run_eq. cbn zeta. rewrite Hchild. cbn [fst]. unfold verdict.
  case_bool_decide as Hrc; destruct ignore_errors; cbn;
    (split; split; [intros H|intros H..]); try done; try tauto;
    try (destruct H; done); try (by left); try (by right).
Qed.

Lemma run_raises_iff_witness :
  Demo.spawn_fail "cp -rf a b" (merged_env ∅ (environ Demo.w0)) (fs Demo.w0)
  = Child [("recon-all exited with ERRORS", true)] 1 Demo.fs0 ∧
  ((run Demo.spawn_fail "cp -rf a b" ∅ false Demo.w0).1
     = Raise (Exception ("Non zero return code: " +:+ Str.of_int 1))
   ↔ 1%Z ≠ 0%Z ∧ false = false) ∧
  ((run Demo.spawn_fail "cp -rf a b" ∅ false Demo.w0).1 = Ok tt
   ↔ 1%Z = 0%Z ∨ false = true).
Proof.
  split; [reflexivity|].
  exact (run_raises_iff Demo.spawn_fail "cp -rf a b" ∅ false Demo.w0
           [("recon-all exited with ERRORS", true)] 1 Demo.fs0 eq_refl).
Defined.

Lemma run_popen_calls spawn command env ignore_errors w :
  popen_calls (run spawn command env ignore_errors w).2
  = popen_calls w ++ [(command, merged_env env (environ w))].
Proof. rewrite run_eq. cbn zeta. by destruct (spawn _ _ _). Qed.

Lemma run_environ spawn command env ignore_errors w :
  environ (run spawn command env ignore_errors w).2
  = merged_env env (environ w).
Proof. rewrite run_eq. cbn zeta. by destruct (spawn _ _ _). Qed.


(** C9: [run] changes [os.environ] itself. After a call the process
    environment is the merged one: an override (other than [DEBUG]) is still
    there and [DEBUG] is gone, whether [run] returned or raised; a later call
    that does not override the variable again hands it to its child, still
    without [DEBUG]. *)
Theorem run_mutates_environ spawn command env ignore_errors w
    command2 env2 ignore_errors2 k v
  (Hk : k ≠ "DEBUG") (Hset : env !! k = Some v) (Hkeep : env2 !! k = None) :
  let w' := (run spawn command env ignore_errors w).2 in
  environ w' = delete "DEBUG" (env ∪ environ w) ∧
  environ w' !! k = Some v ∧
  environ w' !! "DEBUG" = None ∧
  ∃ child_env,
    last (popen_calls (run spawn command2 env2 ignore_errors2 w').2)
      = Some (command2, child_env) ∧
    child_env !! k = Some v ∧
    child_env !! "DEBUG" = None.
Proof.
  intros w'. subst w'. rewrite run_environ.
  assert (Hv : merged_env env (environ w) !! k = Some v).
  { rewrite merged_env_lookup, Hset. by rewrite bool_decide_eq_false_2. }
  split; [done|]. split; [done|]. split; [apply lookup_delete_eq|].
  exists (merged_env env2 (merged_env env (environ w))).
  split; [|split].
  - rewrite run_popen_calls, run_environ. apply last_snoc.
  - rewrite merged_env_lookup, Hkeep, Hv. by rewrite bool_decide_eq_false_2.
  - apply lookup_delete_eq.
Qed.

Lemma run_mutates_environ_witness :
  let w' := (run Demo.spawn_fail "true" {["LANG" := "C"]} true Demo.w0).2 in
  environ w' = delete "DEBUG" ({["LANG" := "C"]} ∪ environ Demo.w0) ∧
  environ w' !! "LANG" = Some "C" ∧
  environ w' !! "DEBUG" = None ∧
  ∃ child_env,
    last (popen_calls (run Demo.spawn_fail "false" ∅ false w').2)
      = Some ("false", child_env) ∧
    child_env !! "LANG" = Some "C" ∧
    child_env !! "DEBUG" = None.
Proof.
  apply (run_mutates_environ Demo.spawn_fail "true" {["LANG" := "C"]} true
           Demo.w0 "false" ∅ false "LANG" "C").
  - discriminate.
  - reflexivity.
  - reflexivity.
Defined.

(** ** The loop over the timepoints *)

Lemma timepoint_skips spawn args subject_label tp tps w :
  let sd := surf_dir (output_dir args) subject_label (tp_label tp) in
  Path.exists_ (fs w) (Path.join sd "lh.pial_lgi") = true →
  Path.exists_ (fs w) (Path.join sd "rh.pial_lgi") = true →
  timepoint spawn args subject_label tp tps w =
  (Ok tps,
   World (environ w) (fs w)
     (stdout w ++ ["lh.pial_lgi and rh.pial_lgi exist for " +:+ subject_label
                   +:+ " " +:+ tp_label tp +:+ ". NOT recomputing"])
     (popen_calls w)).
Proof.
  intros sd Hlh Hrh. unfold timepoint, bind, path_exists. cbn zeta.
  fold sd. rewrite Hlh, Hrh. cbn. by destruct tps.
Qed.

(** C2, as the code has it: at a timepoint whose two files exist in the
    [surf] directory the script rebuilds from the subject label and the parsed
    session label, the loop body starts no command, prints that it does not
    recompute, raises nothing and leaves the two lists as they are. *)
Theorem timepoint_complete_skipped spawn args subject_label tp tps w
  (Hdone : both_exist (fs w)
             (surf_dir (output_dir args) subject_label (tp_label tp)) = true) :
  timepoint spawn args subject_label tp tps w =
  (Ok tps,
   World (environ w) (fs w)
     (stdout w ++ ["lh.pial_lgi and rh.pial_lgi exist for " +:+ subject_label
                   +:+ " " +:+ tp_label tp +:+ ". NOT recomputing"])
     (popen_calls w)).
Proof.
  apply andb_true_iff in Hdone as [Hlh Hrh]. by apply timepoint_skips.
Qed.

Lemma timepoint_complete_skipped_witness :
  both_exist (fs Demo.w0) (surf_dir "/out" "01" (tp_label "sub-01_ses-1")) = true ∧
  timepoint Demo.spawn_fail (Demo.args0 ["01"]) "01" "sub-01_ses-1" ([], [])
    Demo.w0 =
  (Ok ([], []),
   World Demo.environ0 Demo.fs0
     ["lh.pial_lgi and rh.pial_lgi exist for 01 1. NOT recomputing"] []).
Proof.
  split; [reflexivity|].
  exact (timepoint_complete_skipped Demo.spawn_fail (Demo.args0 ["01"]) "01"
           "sub-01_ses-1" ([], []) Demo.w0 eq_refl).
Defined.


(** ** The loop over the subjects *)

(** C6: for a subject without timepoints the loop body raises the error that
    names the subject, and the world is as before: no command was started.
    The loop over the subjects stops there. *)
Theorem subject_without_timepoints spawn args subject_label others w
  (Hnone : discover (fs w) (output_dir args) subject_label = []) :
  subject spawn args subject_label w =
    (Raise (Exception ("No timepoints found. Something went wrong: " +:+
                       subject_label)), w) ∧
  for_each (subject_label :: others) (subject spawn args) w =
    (Raise (Exception ("No timepoints found. Something went wrong: " +:+
                       subject_label)), w).
Proof.
  assert (Hs : subject spawn args subject_label w =
    (Raise (Exception ("No timepoints found. Something went wrong: " +:+
                       subject_label)), w)).
  { unfold subject, bind. by rewrite Hnone. }
  split; [done|]. cbn [for_each]. unfold bind. by rewrite Hs.
Qed.

Lemma subject_without_timepoints_witness :
  discover (fs Demo.w0) "/out" "02" = [] ∧
  subject Demo.spawn_fail (Demo.args0 ["02"; "01"]) "02" Demo.w0 =
    (Raise (Exception "No timepoints found. Something went wrong: 02"),
     Demo.w0) ∧
  for_each ["02"; "01"] (subject Demo.spawn_fail (Demo.args0 ["02"; "01"]))
    Demo.w0 =
    (Raise (Exception "No timepoints found. Something went wrong: 02"),
     Demo.w0).
Proof.
  split; [reflexivity|].
  exact (subject_without_timepoints Demo.spawn_fail (Demo.args0 ["02"; "01"])
           "02" ["01"] Demo.w0 eq_refl).
Defined.

Lemma glob_empty fs dirname pattern :
  Path.listdir fs dirname = [] → Glob.glob fs dirname pattern = [].
Proof. unfold Glob.glob. intros ->. by destruct (Glob.ishidden pattern). Qed.

(** C7: when the output directory has no entry, the script prints the empty
    listing and raises at once: nothing else is printed, no template is
    copied and no subject is looked at. *)
Theorem main_empty_output_dir spawn args w
  (Hempty : Path.listdir (fs w) (output_dir args) = []) :
  main spawn args w =
  (Raise (Exception ("output dir empty " +:+ output_dir args)),
   World (environ w) (fs w) (stdout w ++ ["output_dir content: []"])
     (popen_calls w)).
Proof.
  unfold main. destruct (analysis_level args).
  destruct (participant_label args) as [[|label labels]|];
    unfold bind, glob, ret; rewrite glob_empty by done; reflexivity.
Qed.

Lemma main_empty_output_dir_witness :
  Path.listdir Demo.fs_empty "/out" = [] ∧
  main Demo.spawn_fail (Demo.args0 ["01"])
    (World Demo.environ0 Demo.fs_empty [] []) =
  (Raise (Exception "output dir empty /out"),
   World Demo.environ0 Demo.fs_empty ["output_dir content: []"] []).
Proof.
  split; [reflexivity|].
  exact (main_empty_output_dir Demo.spawn_fail (Demo.args0 ["01"])
           (World Demo.environ0 Demo.fs_empty [] []) eq_refl).
Defined.

(** ** A timepoint that is computed *)

Lemma not_nil_snoc (l : list string) x :
  negb (bool_decide (l ++ [x] = [])) = true.
Proof. rewrite bool_decide_eq_false_2; [done|]. by destruct l. Qed.

(** The command exits with status zero and both files are there: the label
    joins [good_tps] and, with [bad_tps] empty, nothing is raised. *)
Lemma timepoint_succeeds spawn args subject_label tp good_tps w reads fs' :
  let sd := surf_dir (output_dir args) subject_label (tp_label tp) in
  let e := delete "DEBUG" (environ w) in
  let cmd := recon_all tp subject_label (output_dir args) (n_cpus args) in
  both_exist (fs w) sd = false →
  spawn cmd e (fs w) = Child reads 0 fs' →
  both_exist fs' sd = true →
  ∃ out,
    timepoint spawn args subject_label tp (good_tps, []) w =
    (Ok (good_tps ++ [tp_label tp], []),
     World e fs' out (popen_calls w ++ [(cmd, e)])).
Proof.
  intros sd e cmd Hnot Hchild Hdone.
  unfold timepoint, bind at 1 2, path_exists at 1 2. cbn zeta.
  unfold both_exist in Hnot. fold sd. rewrite Hnot.
  unfold bind at 1 2 3, print at 1 2, try_except, bind at 1. cbn [fst snd].
  rewrite run_eq. cbn zeta. cbn [environ fs stdout popen_calls].
  rewrite merged_env_empty. fold e cmd. rewrite Hchild.
  unfold verdict. cbn [negb andb bool_decide decide_rel].
  rewrite bool_decide_eq_true_2 by done. cbn [negb andb].
  unfold bind at 1 2, path_exists at 1 2. cbn [fs].
  unfold both_exist in Hdone. apply andb_true_iff in Hdone as [-> ->].
  cbn [negb app]. rewrite bool_decide_eq_true_2 by done. cbn [negb].
  unfold bind at 1, print at 1. unfold ret at 1. cbn [fst snd].
  rewrite not_nil_snoc. unfold bind at 1, print at 1.
  rewrite bool_decide_eq_true_2 by done. cbn [negb].
  unfold bind, print, ret. cbn. eauto.
Qed.

(** The computation fails: the label joins [bad_tps], and the error that
    names the failed labels is raised before the loop body ends. *)
Lemma timepoint_fails spawn args subject_label tp good_tps bad_tps w :
  let sd := surf_dir (output_dir args) subject_label (tp_label tp) in
  let e := delete "DEBUG" (environ w) in
  let cmd := recon_all tp subject_label (output_dir args) (n_cpus args) in
  both_exist (fs w) sd = false →
  computation_fails (spawn cmd e (fs w)) sd →
  ∃ w',
    timepoint spawn args subject_label tp (good_tps, bad_tps) w =
    (Raise (Exception ("Timpoints failed for " +:+ subject_label +:+ ": " +:+
                       Str.join " " (bad_tps ++ [tp_label tp]))), w') ∧
    popen_calls w' = popen_calls w ++ [(cmd, e)] ∧
    environ w' = e.
Proof.
  intros sd e cmd Hnot Hfail.
  unfold timepoint, bind at 1 2, path_exists at 1 2. cbn zeta.
  unfold both_exist in Hnot. fold sd. rewrite Hnot.
  unfold bind at 1 2 3, print at 1 2, try_except, bind at 1. cbn [fst snd].
  rewrite run_eq. cbn zeta. cbn [environ fs stdout popen_calls].
  rewrite merged_env_empty. fold e cmd.
  destruct (spawn cmd e (fs w)) as [reads rc fs'|msg];
    unfold computation_fails in Hfail.
  - unfold verdict. destruct (decide (rc = 0%Z)) as [Hrc|Hrc];
      [rewrite (bool_decide_eq_true_2 _ Hrc)
      |rewrite (bool_decide_eq_false_2 _ Hrc)]; cbn [negb andb].
    + destruct Hfail as [Hne|Hmiss]; [by destruct Hne|].
      unfold bind at 1 2, path_exists at 1 2. cbn [fs].
      unfold both_exist in Hmiss. fold sd.
      assert (Himg : negb (bool_decide (
        (if negb (Path.exists_ fs' (Path.join sd "lh.pial_lgi"))
         then ["lh.pial_lgi"] else []) ++
        (if negb (Path.exists_ fs' (Path.join sd "rh.pial_lgi"))
         then ["rh.pial_lgi"] else []) = [])) = true).
      { revert Hmiss.
        destruct (Path.exists_ fs' (Path.join sd "lh.pial_lgi")),
          (Path.exists_ fs' (Path.join sd "rh.pial_lgi"));
          intros Hmiss; vm_compute in Hmiss |- *; congruence. }
      rewrite Himg. unfold bind at 1, print at 1, ret at 1. cbn [fst snd].
      destruct (negb (bool_decide (good_tps = []))).
      * unfold bind at 1, print at 1. rewrite not_nil_snoc.
        unfold raise. eauto.
      * unfold bind at 1, ret at 1. rewrite not_nil_snoc.
        unfold raise. eauto.
    + unfold bind at 1, print at 1, ret at 1. cbn [fst snd].
      destruct (negb (bool_decide (good_tps = []))).
      * unfold bind at 1, print at 1. rewrite not_nil_snoc.
        unfold raise. eauto.
      * unfold bind at 1, ret at 1. rewrite not_nil_snoc.
        unfold raise. eauto.
  - unfold bind at 1, print at 1, ret at 1. cbn [fst snd].
    destruct (negb (bool_decide (good_tps = []))).
    + unfold bind at 1, print at 1. rewrite not_nil_snoc.
      unfold raise. eauto.
    + unfold bind at 1, ret at 1. rewrite not_nil_snoc.
      unfold raise. eauto.
Qed.

(** The first timepoint that fails ends the loop: the error names the labels
    failed so far, and the timepoints after it are not looked at. *)
Lemma timepoints_loop_first_failure spawn args subject_label tp others w :
  let sd := surf_dir (output_dir args) subject_label (tp_label tp) in
  let e := delete "DEBUG" (environ w) in
  let cmd := recon_all tp subject_label (output_dir args) (n_cpus args) in
  both_exist (fs w) sd = false →
  computation_fails (spawn cmd e (fs w)) sd →
  ∃ w',
    timepoints_loop spawn args subject_label (tp :: others) w =
    (Raise (Exception ("Timpoints failed for " +:+ subject_label +:+ ": " +:+
                       tp_label tp)), w') ∧
    popen_calls w' = popen_calls w ++ [(cmd, e)].
Proof.
  intros sd e cmd Hnot Hfail.
  destruct (timepoint_fails spawn args subject_label tp [] [] w Hnot Hfail)
    as (w' & Htp & Hcalls & _).
  exists w'. split; [|done].
  unfold timepoints_loop. cbn [for_fold]. unfold bind at 1. by rewrite Htp.
Qed.

(** C5: two timepoints, the first computed with success and the second
    failing. Nothing is raised at the first, whose label goes to [good_tps];
    the loop ends in the error that names the subject and the label of the
    second timepoint only. *)
Theorem two_timepoints_second_fails spawn args subject_label t1 t2 w reads1 fs1
  (Htodo1 : both_exist (fs w)
              (surf_dir (output_dir args) subject_label (tp_label t1)) = false)
  (Hrun1 : spawn (recon_all t1 subject_label (output_dir args) (n_cpus args))
             (delete "DEBUG" (environ w)) (fs w) = Child reads1 0 fs1)
  (Hdone1 : both_exist fs1
              (surf_dir (output_dir args) subject_label (tp_label t1)) = true)
  (Htodo2 : both_exist fs1
              (surf_dir (output_dir args) subject_label (tp_label t2)) = false)
  (Hfail2 : computation_fails
              (spawn (recon_all t2 subject_label (output_dir args) (n_cpus args))
                 (delete "DEBUG" (environ w)) fs1)
              (surf_dir (output_dir args) subject_label (tp_label t2))) :
  (∃ w1, timepoint spawn args subject_label t1 ([], []) w
         = (Ok ([tp_label t1], []), w1)) ∧
  (∃ w', timepoints_loop spawn args subject_label [t1; t2] w
         = (Raise (Exception ("Timpoints failed for " +:+ subject_label +:+
                              ": " +:+ tp_label t2)), w')).
Proof.
  destruct (timepoint_succeeds spawn args subject_label t1 [] w reads1 fs1
              Htodo1 Hrun1 Hdone1) as [out Ht1].
  split; [eauto|].
  unfold timepoints_loop. cbn [for_fold]. unfold bind at 1. rewrite Ht1.
  cbn [app]. unfold bind at 1.
  set (w1 := World _ _ _ _).
  destruct (timepoint_fails spawn args subject_label t2 [tp_label t1] [] w1)
    as (w' & Ht2 & _).
  - exact Htodo2.
  - subst w1. cbn [environ fs]. by rewrite delete_delete_eq.
  - rewrite Ht2. eauto.
Qed.

Lemma two_timepoints_second_fails_witness :
  (∃ w1, timepoint Demo.spawn_first (Demo.args0 ["03"]) "03" "sub-03_ses-1"
           ([], []) Demo.w0 = (Ok ([tp_label "sub-03_ses-1"], []), w1)) ∧
  (∃ w', timepoints_loop Demo.spawn_first (Demo.args0 ["03"]) "03"
           ["sub-03_ses-1"; "sub-03_ses-2"] Demo.w0
         = (Raise (Exception ("Timpoints failed for " +:+ "03" +:+ ": " +:+
                              tp_label "sub-03_ses-2")), w')).
Proof.
  apply (two_timepoints_second_fails Demo.spawn_first (Demo.args0 ["03"]) "03"
           "sub-03_ses-1" "sub-03_ses-2" Demo.w0
           [("recon-all finished without error", true)]
           (list_to_map (Demo.lgi "sub-03_ses-1.long.sub-03") ∪ Demo.fs0)).
  - vm_compute. reflexivity.
  - vm_compute. reflexivity.
  - vm_compute. reflexivity.
  - vm_compute. reflexivity.
  - left. vm_compute. discriminate.
Defined.

(** C1, on the code: with subject 03 and every command failing, the script
    stops at the first session. The error names label 1 only, one command was
    started, and the second session was never tried, although the message
    printed just before promises to try the other timepoints. *)
Theorem first_failure_aborts_subject :
  let r := main Demo.spawn_fail (Demo.args0 ["03"]) Demo.w0 in
  discover Demo.fs0 "/out" "03" = ["sub-03_ses-1"; "sub-03_ses-2"] ∧
  r.1 = Raise (Exception "Timpoints failed for 03: 1") ∧
  map fst (popen_calls r.2)
    = ["recon-all -long sub-03_ses-1 sub-03 -sd /out -localGI -parallel -openmp 2"] ∧
  last (stdout r.2)
    = Some "Something failed with tp 1. Try other timepoints and raise Error later.".
Proof. vm_compute. done. Qed.

(** ** Strings *)

Lemma app_cons a s t : String a s +:+ t = String a (s +:+ t).
Proof. reflexivity. Qed.

Lemma app_nil_l s : "" +:+ s = s.
Proof. reflexivity. Qed.

Lemma app_nil_r s : s +:+ "" = s.
Proof. induction s as [|a s IH]; [done|]. by rewrite app_cons, IH. Qed.

Lemma app_assoc_str s t u : (s +:+ t) +:+ u = s +:+ (t +:+ u).
Proof. induction s as [|a s IH]; [done|]. by rewrite !app_cons, IH. Qed.

Lemma length_app_str s t :
  String.length (s +:+ t) = String.length s + String.length t.
Proof. induction s as [|a s IH]; [done|]. rewrite app_cons. cbn. by rewrite IH. Qed.

(** Two ways to cut one string: one cut is inside a part of the other. *)
Lemma app_eq_app_str a b c d :
  a +:+ b = c +:+ d →
  (∃ k, c = a +:+ k ∧ b = k +:+ d) ∨ (∃ k, a = c +:+ k ∧ d = k +:+ b).
Proof.
  revert c. induction a as [|x a IH]; intros c H.
  - left. exists c. by rewrite app_nil_l in *.
  - destruct c as [|y c].
    + right. exists (String x a). by rewrite app_nil_l in *.
    + rewrite !app_cons in H. injection H as -> H.
      destruct (IH c H) as [(k & -> & ->)|(k & -> & ->)]; [left|right];
        exists k; by rewrite app_cons.
Qed.

Lemma prefix_app p r : String.prefix p (p +:+ r) = true.
Proof.
  induction p as [|a p IH]; [by destruct r|].
  rewrite app_cons. cbn. by destruct (ascii_dec a a).
Qed.

Lemma prefix_inv p s : String.prefix p s = true → ∃ r, s = p +:+ r.
Proof.
  revert s. induction p as [|a p IH]; intros s H.
  - by exists s.
  - destruct s as [|b s]; [done|]. cbn in H.
    destruct (ascii_dec a b) as [->|]; [|done].
    destruct (IH s H) as [r ->]. by exists r.
Qed.

Lemma contains_prefix p s : String.prefix p s = true → Str.contains p s = true.
Proof. intros H. destruct s; cbn [Str.contains]; by rewrite H. Qed.

Lemma contains_app p a b : Str.contains p (a +:+ p +:+ b) = true.
Proof.
  induction a as [|x a IH].
  - rewrite app_nil_l. apply contains_prefix, prefix_app.
  - rewrite app_cons. cbn [Str.contains]. rewrite IH. apply orb_true_r.
Qed.

Lemma contains_inv p s :
  Str.contains p s = true → ∃ a b, s = a +:+ p +:+ b.
Proof.
  induction s as [|x s IH]; cbn [Str.contains]; intros H.
  - rewrite orb_false_r in H. destruct (prefix_inv _ _ H) as [r Hr].
    exists "", r. by rewrite app_nil_l.
  - apply orb_true_iff in H as [H|H].
    + destruct (prefix_inv _ _ H) as [r Hr]. exists "", r. by rewrite app_nil_l.
    + destruct (IH H) as (a & b & ->). exists (String x a), b.
      by rewrite app_cons.
Qed.

(** *** The part after the last occurrence of a character *)

Lemma after_last_app c a b :
  Str.after_last c (a +:+ b) =
  match Str.after_last c b with
  | Some t => Some t
  | None => (fun t => t +:+ b) <$> Str.after_last c a
  end.
Proof.
  induction a as [|x a IH].
  - rewrite app_nil_l. by destruct (Str.after_last c b).
  - rewrite app_cons. cbn [Str.after_last]. rewrite IH.
    destruct (Str.after_last c b); [done|].
    destruct (Str.after_last c a); [done|].
    cbn. by destruct (bool_decide (x = c)).
Qed.

Lemma after_last_cons_same c k :
  Str.after_last c (String c k) = Some (default k (Str.after_last c k)).
Proof.
  cbn. destruct (Str.after_last c k); [done|].
  by rewrite bool_decide_eq_true_2.
Qed.

(** What follows the last [c] has no [c] and ends the string. *)
Lemma after_last_Some c s t :
  Str.after_last c s = Some t →
  ∃ q, s = q +:+ String c t ∧ Str.after_last c t = None.
Proof.
  revert t. induction s as [|x s IH]; intros t H; [done|].
  cbn in H. destruct (Str.after_last c s) as [t'|] eqn:E.
  - injection H as ->. destruct (IH t eq_refl) as (q & -> & Hn).
    exists (String x q). by rewrite app_cons.
  - case_bool_decide as Hx; [|done]. injection H as ->. subst x.
    exists "". by rewrite app_nil_l.
Qed.

Lemma after_last_None_suffix c q t :
  Str.after_last c (q +:+ t) = None → Str.after_last c t = None.
Proof. rewrite after_last_app. by destruct (Str.after_last c t). Qed.

Lemma prefix_nil s : String.prefix "" s = true.
Proof. by destruct s. Qed.

Lemma contains_char c s :
  Str.contains (String c "") s = false ↔ Str.after_last c s = None.
Proof.
  induction s as [|x s IH]; [done|].
  cbn [Str.contains String.prefix]. destruct (ascii_dec c x) as [->|Hne].
  - rewrite prefix_nil, after_last_cons_same. done.
  - cbn [orb Str.after_last]. rewrite IH.
    rewrite bool_decide_eq_false_2 by done.
    by destruct (Str.after_last c s).
Qed.

(** *** [split] *)

(** Splitting at a character: the last piece is what follows the last
    occurrence, or the whole string when there is none. *)
Lemma split_char c s :
  match Str.after_last c s with
  | None => Str.split (String c "") s = [s]
  | Some t => ∃ init, init ≠ [] ∧ Str.split (String c "") s = init ++ [t]
  end.
Proof.
  unfold Str.split. induction s as [|x s IH]; [done|].
  cbn [Str.split_go Str.after_last String.prefix String.length].
  destruct (ascii_dec c x) as [->|Hne].
  - rewrite prefix_nil, bool_decide_eq_true_2 by done. cbn [Nat.sub].
    destruct (Str.after_last x s) as [t|].
    + destruct IH as (init & Hinit & ->). exists ("" :: init). done.
    + rewrite IH. by exists [""].
  - rewrite bool_decide_eq_false_2 by done.
    destruct (Str.after_last c s) as [t|].
    + destruct IH as (init & Hinit & ->).
      destruct init as [|p init]; [done|].
      exists (String x p :: init). done.
    + by rewrite IH.
Qed.

Lemma last_item_split_char c s :
  Str.last_item (Str.split (String c "") s) = default s (Str.after_last c s).
Proof.
  pose proof (split_char c s) as H. unfold Str.last_item.
  destruct (Str.after_last c s) as [t|].
  - destruct H as (init & _ & ->). by rewrite last_snoc.
  - by rewrite H.
Qed.

Lemma tp_label_eq tp :
  tp_label tp =
  default (default tp (Str.after_last "_" tp))
          (Str.after_last "-" (default tp (Str.after_last "_" tp))).
Proof. unfold tp_label. by rewrite !last_item_split_char. Qed.

(** The first piece of a split: empty when the string starts with the
    separator, and otherwise the first character and the first piece of the
    rest. *)
Lemma first_item_split_here sep s :
  sep ≠ "" → String.prefix sep s = true →
  Str.first_item (Str.split sep s) = "".
Proof.
  intros Hsep H. destruct s as [|x s].
  - by destruct sep.
  - unfold Str.split. cbn [Str.split_go]. by rewrite H.
Qed.

Lemma first_item_split_later sep x s :
  String.prefix sep (String x s) = false →
  Str.first_item (Str.split sep (String x s))
  = String x (Str.first_item (Str.split sep s)).
Proof.
  intros H. unfold Str.split. cbn [Str.split_go]. rewrite H.
  by destruct (Str.split_go sep s 0).
Qed.

(** The first piece ends at the first occurrence of the separator: it is a
    prefix of every [p] that the separator follows. *)
Lemma first_item_split_spec sep s p r :
  sep ≠ "" → s = p +:+ sep +:+ r →
  ∃ u r', p = Str.first_item (Str.split sep s) +:+ u ∧
          s = Str.first_item (Str.split sep s) +:+ sep +:+ r'.
Proof.
  intros Hsep. revert p. induction s as [|x s IH]; intros p Hs.
  - destruct p; [|done]. rewrite app_nil_l in Hs. by destruct sep.
  - destruct (String.prefix sep (String x s)) eqn:Hpre.
    + rewrite first_item_split_here by done.
      destruct (prefix_inv _ _ Hpre) as [r' Hr'].
      exists p, r'. by rewrite !app_nil_l.
    + rewrite first_item_split_later by done.
      destruct p as [|y p].
      * rewrite app_nil_l in Hs. rewrite Hs, prefix_app in Hpre. done.
      * rewrite app_cons in Hs. injection Hs as -> Hs.
        destruct (IH p Hs) as (u & r' & Hp & Hs').
        exists u, r'. rewrite !app_cons. by rewrite <- Hp, <- Hs'.
Qed.

(** ** The session label and the directory the script checks *)

Lemma after_last_length c s :
  String.length (default s (Str.after_last c s)) ≤ String.length s.
Proof.
  destruct (Str.after_last c s) as [t|] eqn:E; [|done].
  destruct (after_last_Some _ _ _ E) as (q & -> & _).
  rewrite length_app_str. cbn. lia.
Qed.

Lemma after_last_idem c s :
  Str.after_last c (default s (Str.after_last c s)) = None.
Proof.
  destruct (Str.after_last c s) as [t|] eqn:E; [|done].
  by destruct (after_last_Some _ _ _ E) as (q & _ & ?).
Qed.

(** The label has neither [_] nor [-]. *)
Lemma tp_label_no_separator tp :
  Str.contains "_" (tp_label tp) = false ∧
  Str.contains "-" (tp_label tp) = false.
Proof.
  rewrite tp_label_eq. set (u := default tp (Str.after_last "_" tp)).
  assert (Hu : Str.after_last "_" u = None) by apply after_last_idem.
  split; apply contains_char; [|apply after_last_idem].
  destruct (Str.after_last "-" u) as [t|] eqn:E; [|done].
  destruct (after_last_Some _ _ _ E) as (q & Hq & _).
  rewrite Hq in Hu. apply after_last_None_suffix in Hu.
  revert Hu. cbn [Str.after_last default from_option id].
  by destruct (Str.after_last "_" t).
Qed.

(** The label of [..._ses-<ses>] is [<ses>] when [<ses>] has no separator. *)
Lemma tp_label_session a ses :
  Str.contains "_" ses = false → Str.contains "-" ses = false →
  tp_label (a +:+ "_ses-" +:+ ses) = ses.
Proof.
  intros H_ H'. apply contains_char in H_, H'.
  rewrite tp_label_eq.
  assert (Hu : Str.after_last "_" (a +:+ "_ses-" +:+ ses)
               = Some ("ses-" +:+ ses)).
  { rewrite after_last_app. rewrite app_cons, after_last_cons_same.
    rewrite after_last_app, H_. done. }
  rewrite Hu. cbn [default from_option id].
  change ("ses-" +:+ ses) with ("ses" +:+ String "-" ses).
  rewrite after_last_app, after_last_cons_same, H'. done.
Qed.

(** The label of a name that has [-] is no longer than what follows that [-]. *)
Lemma tp_label_after_dash a k :
  String.length (tp_label (a +:+ String "-" k)) ≤ String.length k.
Proof.
  rewrite tp_label_eq. rewrite (after_last_app "_" a (String "-" k)).
  assert (Hd : Str.after_last "_" (String "-" k) = Str.after_last "_" k).
  { cbn. by destruct (Str.after_last "_" k). }
  rewrite Hd.
  destruct (Str.after_last "_" k) as [t|] eqn:E.
  - cbn [default from_option id].
    destruct (after_last_Some _ _ _ E) as (q & -> & _).
    etrans; [apply after_last_length|]. rewrite length_app_str. cbn. lia.
  - assert (Hu : ∃ a', default (a +:+ String "-" k)
                  ((fun t => t +:+ String "-" k) <$> Str.after_last "_" a)
                  = a' +:+ String "-" k).
    { destruct (Str.after_last "_" a) as [a'|]; cbn; eauto. }
    destruct Hu as [a' ->].
    rewrite after_last_app, after_last_cons_same.
    cbn [default from_option id]. apply after_last_length.
Qed.

Lemma join_inj od x y :
  Str.startswith x "/" = false → Str.startswith y "/" = false →
  Path.join od x = Path.join od y → x = y.
Proof.
  unfold Path.join. intros -> ->.
  destruct (bool_decide (od = "") || Str.endswith_char "/" od); intros H.
  - by apply (inj _) in H.
  - apply (inj _) in H. by apply (inj (String.app "/")) in H.
Qed.

(** Take the first character off both sides of an equation between strings. *)
Ltac peel H x :=
  destruct x as [|? x];
  [ exfalso; revert H; rewrite ?app_assoc_str, ?app_cons, ?app_nil_l;
    discriminate
  | rewrite ?app_assoc_str, ?app_cons, ?app_nil_l in H;
    injection H as <- H ].

(** C10, as the code has it: the script checks the [surf] directory of a path
    rebuilt from the subject label and the session label. For a subject label
    without [.long.], the rebuilt directory is the entry the timepoint came
    from exactly when the timepoint is [sub-<label>_ses-<ses>] with a [<ses>]
    that has neither [_] nor [-], and the entry is that timepoint followed
    by [.long.sub-<label>]. *)
Theorem rebuilt_directory_iff output_dir subject_label entry
  (Hlabel : Str.contains ".long." subject_label = false)
  (Hentry : Str.startswith entry "/" = false) :
  let tp := timepoint_of entry in
  surf_dir output_dir subject_label (tp_label tp)
    = Path.join (Path.join output_dir (long_name subject_label (tp_label tp)))
        "surf" ∧
  (Path.join output_dir (long_name subject_label (tp_label tp))
     = Path.join output_dir entry
   ↔ ∃ ses,
       tp = "sub-" +:+ subject_label +:+ "_ses-" +:+ ses ∧
       Str.contains "_" ses = false ∧
       Str.contains "-" ses = false ∧
       entry = tp +:+ ".long.sub-" +:+ subject_label).
Proof.
  intros tp. split; [reflexivity|]. split.
  - intros Heq. apply join_inj in Heq; [|reflexivity|done].
    pose proof (tp_label_no_separator tp) as [Hno_ Hno'].
    remember (tp_label tp) as X eqn:HX.
    assert (Hn : entry = ("sub-" +:+ subject_label +:+ "_ses-" +:+ X)
                         +:+ ".long." +:+ ("sub-" +:+ subject_label)).
    { rewrite <- Heq. unfold long_name. by rewrite !app_assoc_str. }
    destruct (first_item_split_spec ".long." entry _ _ ltac:(done) Hn)
      as (u & r' & HP & Hn').
    fold (timepoint_of entry) in HP, Hn'. fold tp in HP, Hn'.
    assert (Htail : ".long." +:+ r'
                    = u +:+ ".long." +:+ ("sub-" +:+ subject_label)).
    { rewrite HP, Hn', app_assoc_str in Hn. by apply (inj _) in Hn. }
    destruct u as [|c u].
    + rewrite app_nil_r in HP. exists X. split; [done|].
      split; [done|]. split; [done|]. by rewrite <- HP.
    + exfalso. rewrite !app_cons in Htail. injection Htail as <- Htail.
      clearbody tp. clear Hn Hn' Heq Hentry.
      peel HP tp. peel HP tp. peel HP tp. peel HP tp.
      destruct (app_eq_app_str _ _ _ _ HP) as [(k & -> & Hk)|(k & HL & Hk)].
      * peel Hk k. peel Hk k. peel Hk k. peel Hk k. peel Hk k.
        pose proof (tp_label_after_dash
                      ("sub-" +:+ subject_label +:+ "_ses") k) as Hlen.
        rewrite !app_assoc_str in Hlen.
        change ("sub-" +:+ subject_label +:+ "_ses" +:+ String "-" k)
          with (String "s" (String "u" (String "b" (String "-"
                  (subject_label +:+ String "_" (String "s" (String "e"
                     (String "s" (String "-" k))))))))) in Hlen.
        rewrite <- HX, Hk, length_app_str in Hlen. cbn in Hlen. lia.
      * destruct k as [|c k]; [rewrite app_nil_l in Hk; discriminate Hk|].
        rewrite app_cons in Hk. injection Hk as <- Hk. subst u.
        peel Htail k. peel Htail k. peel Htail k. peel Htail k. peel Htail k.
        rewrite HL in Hlabel.
        change (String "." (String "l" (String "o" (String "n" (String "g"
                  (String "." k))))))
          with (".long." +:+ k) in Hlabel.
        by rewrite contains_app in Hlabel.
  - intros (ses & Htp & Hno_ & Hno' & Hn). f_equal.
    assert (HX : tp_label tp = ses).
    { rewrite Htp. rewrite <- (app_assoc_str "sub-").
      by apply tp_label_session. }
    rewrite HX, Hn, Htp. unfold long_name. by rewrite !app_assoc_str.
Qed.

Lemma rebuilt_directory_iff_witness :
  Str.contains ".long." "01" = false ∧
  Str.startswith "sub-01_ses-1.long.sub-01" "/" = false ∧
  let tp := timepoint_of "sub-01_ses-1.long.sub-01" in
  surf_dir "/out" "01" (tp_label tp)
    = Path.join (Path.join "/out" (long_name "01" (tp_label tp))) "surf" ∧
  (Path.join "/out" (long_name "01" (tp_label tp))
     = Path.join "/out" "sub-01_ses-1.long.sub-01"
   ↔ ∃ ses,
       tp = "sub-" +:+ "01" +:+ "_ses-" +:+ ses ∧
       Str.contains "_" ses = false ∧
       Str.contains "-" ses = false ∧
       "sub-01_ses-1.long.sub-01" = tp +:+ ".long.sub-" +:+ "01").
Proof.
  split; [reflexivity|]. split; [reflexivity|].
  exact (rebuilt_directory_iff "/out" "01" "sub-01_ses-1.long.sub-01"
           eq_refl eq_refl).
Defined.

(** C10 as stated fails: the entry [sub-05_ses-1.long.sub-05_base] is found
    for subject 05 and its timepoint [sub-05_ses-1] has the form the claim
    asks for, yet the rebuilt directory is another one. *)
Lemma rebuilt_directory_not_by_form :
  let entry := "sub-05_ses-1.long.sub-05_base" in
  entry ∈ long_entries Demo.fs0 "/out" "05" ∧
  ¬ (Path.join "/out" (long_name "05" (tp_label (timepoint_of entry)))
       = Path.join "/out" entry
     ↔ session_form "05" (timepoint_of entry) = true).
Proof.
  split.
  - apply (bool_decide_unpack _). by vm_compute.
  - intros [_ H]. specialize (H eq_refl). vm_compute in H. discriminate H.
Qed.

(** ** Timepoint discovery *)

Lemma after_last_suffix_slash od :
  Str.endswith_char "/" od = true → Str.after_last "/" od = Some "".
Proof.
  induction od as [|x od IH]; [done|].
  cbn [Str.endswith_char Str.after_last]. destruct od as [|y od].
  - intros H. apply bool_decide_eq_true_1 in H as ->. done.
  - intros H. by rewrite (IH H).
Qed.

Lemma basename_join od x :
  Str.contains "/" x = false → Path.basename (Path.join od x) = x.
Proof.
  intros Hx. assert (Hpre : Str.startswith x "/" = false).
  { unfold Str.startswith. destruct x; cbn [Str.contains] in Hx;
      by apply orb_false_iff in Hx as [? _]. }
  apply contains_char in Hx.
  unfold Path.join, Path.basename. rewrite Hpre.
  destruct (bool_decide (od = "")) eqn:Hod; cbn [orb].
  - apply bool_decide_eq_true_1 in Hod as ->. by rewrite app_nil_l, Hx.
  - destruct (Str.endswith_char "/" od) eqn:Hend.
    + rewrite after_last_app, Hx, (after_last_suffix_slash _ Hend). done.
    + change ("/" +:+ x) with (String "/" x).
      rewrite after_last_app, after_last_cons_same, Hx. done.
Qed.

(** *** What the pattern [sub-<label>*.long.*] matches *)

Lemma fnmatch_go_star pat name :
  Glob.fnmatch_go (String "*" pat) name =
  Glob.fnmatch_go pat name ||
  match name with
  | "" => false
  | String _ name' => Glob.fnmatch_go (String "*" pat) name'
  end.
Proof. by destruct name. Qed.

Lemma fnmatch_go_cons c pat name :
  Glob.fnmatch_go (String c pat) name = true →
  c = "*"%char ∨
  ∃ d name', name = String d name' ∧ Glob.fnmatch_go pat name' = true.
Proof.
  cbn [Glob.fnmatch_go]. case_bool_decide as Hstar; [by left|].
  right. case_bool_decide as Hany; destruct name as [|d name']; try done.
  - eauto.
  - apply andb_true_iff in H as [_ H]. eauto.
Qed.

Lemma fnmatch_go_literal c pat name :
  c ≠ "*"%char → c ≠ "?"%char →
  Glob.fnmatch_go (String c pat) name = true →
  ∃ name', name = String c name' ∧ Glob.fnmatch_go pat name' = true.
Proof.
  intros Hstar Hany. cbn [Glob.fnmatch_go].
  rewrite !bool_decide_eq_false_2 by done.
  destruct name as [|d name']; [done|]. intros H.
  apply andb_true_iff in H as [Hc H]. apply bool_decide_eq_true_1 in Hc as <-.
  eauto.
Qed.

Lemma contains_cons p x s :
  Str.contains p s = true → Str.contains p (String x s) = true.
Proof. intros H. cbn [Str.contains]. rewrite H. apply orb_true_r. Qed.

Lemma fnmatch_long_here name :
  Glob.fnmatch_go ".long.*" name = true → String.prefix ".long." name = true.
Proof.
  intros H.
  do 6 (apply fnmatch_go_literal in H as (? & -> & H); [|done..]).
  apply (prefix_app ".long.").
Qed.

Lemma fnmatch_long_tail name :
  Glob.fnmatch_go "*.long.*" name = true → Str.contains ".long." name = true.
Proof.
  induction name as [|x name IH]; rewrite fnmatch_go_star; intros H;
    apply orb_true_iff in H as [H|H]; try done;
    first [ by apply contains_prefix, fnmatch_long_here
          | by apply contains_cons, IH ].
Qed.

Lemma fnmatch_long pat name :
  Glob.fnmatch_go (pat +:+ "*.long.*") name = true →
  Str.contains ".long." name = true.
Proof.
  revert name. induction pat as [|c pat IH]; intros name.
  - rewrite app_nil_l. apply fnmatch_long_tail.
  - rewrite app_cons. destruct (decide (c = "*"%char)) as [->|Hc].
    + induction name as [|x name IHname]; rewrite fnmatch_go_star; intros H;
        apply orb_true_iff in H as [H|H]; try done;
        first [ by apply IH | by apply contains_cons, IHname ].
    + intros H. destruct (fnmatch_go_cons _ _ _ H) as [?|(d & name' & -> & H')];
        [done|]. by apply contains_cons, IH.
Qed.

Lemma discover_eq fs output_dir subject_label :
  discover fs output_dir subject_label =
  Str.sorted (map timepoint_of (map Path.basename
    (map (Path.join output_dir) (long_entries fs output_dir subject_label)))).
Proof. reflexivity. Qed.

Lemma long_entries_inv fs output_dir subject_label entry :
  entry ∈ long_entries fs output_dir subject_label →
  entry ∈ Path.listdir fs output_dir ∧
  Glob.fnmatch entry ("sub-" +:+ subject_label +:+ "*.long.*") = true.
Proof.
  unfold long_entries. intros H.
  apply list_elem_of_filter in H as [Hmatch H].
  apply list_elem_of_filter in H as [_ H]. done.
Qed.

Lemma map_basename_join output_dir (l : list string) :
  Forall (fun x => Str.contains "/" x = false) l →
  map Path.basename (map (Path.join output_dir) l) = l.
Proof.
  induction 1 as [|x l Hx _ IH]; [done|].
  cbn [map]. by rewrite basename_join, IH.
Qed.

(** C4 as stated fails: two entries for one session of subject 05 give the
    same timepoint twice. *)
Lemma discover_duplicates : ¬ NoDup (discover Demo.fs0 "/out" "05").
Proof.
  assert (E : discover Demo.fs0 "/out" "05" = ["sub-05_ses-1"; "sub-05_ses-1"])
    by (vm_compute; reflexivity).
  rewrite E. intros H. apply NoDup_cons in H as [H _]. apply H. left.
Qed.

(** C4, as the code has it: the timepoints of a subject are sorted and are,
    entry for entry, what stands before the first [.long.] in the names of
    the output directory that match [sub-<label>*.long.*]; an entry is not
    dropped when another gives the same timepoint. *)
Theorem discover_sorted_permutation fs output_dir subject_label
  (Hnames : Forall (fun x => Str.contains "/" x = false)
              (Path.listdir fs output_dir)) :
  Sorted String.le (discover fs output_dir subject_label) ∧
  discover fs output_dir subject_label
    ≡ₚ map timepoint_of (long_entries fs output_dir subject_label) ∧
  length (discover fs output_dir subject_label)
    = length (long_entries fs output_dir subject_label) ∧
  ∀ tp, tp ∈ discover fs output_dir subject_label →
    ∃ entry rest,
      entry ∈ Path.listdir fs output_dir ∧
      Glob.fnmatch entry ("sub-" +:+ subject_label +:+ "*.long.*") = true ∧
      entry = tp +:+ ".long." +:+ rest.
Proof.
  assert (Hperm : discover fs output_dir subject_label
            ≡ₚ map timepoint_of (long_entries fs output_dir subject_label)).
  { rewrite discover_eq. unfold Str.sorted. rewrite merge_sort_Permutation.
    rewrite map_basename_join; [done|].
    apply Forall_forall. intros x Hx.
    apply long_entries_inv in Hx as [Hx _].
    by apply (proj1 (Forall_forall _ _) Hnames). }
  split; [|split; [|split]].
  - rewrite discover_eq. apply (Sorted_merge_sort String.le).
  - done.
  - rewrite Hperm. apply length_map.
  - intros tp Htp. rewrite Hperm in Htp.
    apply list_elem_of_In, in_map_iff in Htp as (entry & <- & Hentry).
    apply list_elem_of_In, long_entries_inv in Hentry as [Hin Hmatch].
    assert (Hlong : Str.contains ".long." entry = true).
    { unfold Glob.fnmatch in Hmatch.
      rewrite <- (app_assoc_str "sub-") in Hmatch. by apply fnmatch_long in Hmatch. }
    apply contains_inv in Hlong as (a & b & Hab).
    destruct (first_item_split_spec ".long." entry a b ltac:(done) Hab)
      as (u & rest & _ & Hrest).
    exists entry, rest. done.
Qed.

Lemma discover_sorted_permutation_witness :
  Forall (fun x => Str.contains "/" x = false) (Path.listdir Demo.fs0 "/out") ∧
  Sorted String.le (discover Demo.fs0 "/out" "05") ∧
  discover Demo.fs0 "/out" "05"
    ≡ₚ map timepoint_of (long_entries Demo.fs0 "/out" "05") ∧
  length (discover Demo.fs0 "/out" "05")
    = length (long_entries Demo.fs0 "/out" "05") ∧
  ∀ tp, tp ∈ discover Demo.fs0 "/out" "05" →
    ∃ entry rest,
      entry ∈ Path.listdir Demo.fs0 "/out" ∧
      Glob.fnmatch entry ("sub-" +:+ "05" +:+ "*.long.*") = true ∧
      entry = tp +:+ ".long." +:+ rest.
Proof.
  assert (H : Forall (fun x => Str.contains "/" x = false)
                (Path.listdir Demo.fs0 "/out")).
  { apply (bool_decide_unpack _). vm_compute. exact I. }
  split; [exact H|].
  exact (discover_sorted_permutation Demo.fs0 "/out" "05" H).
Defined.

(** * Further properties *)

(** ** Session labels and timepoint names *)

Lemma after_last_is_suffix c s :
  ∃ q, s = q +:+ default s (Str.after_last c s).
Proof.
  destruct (Str.after_last c s) as [t|] eqn:E.
  - destruct (after_last_Some _ _ _ E) as (q & -> & _).
    exists (q +:+ String c ""). cbn [default from_option id].
    rewrite app_assoc_str. done.
  - by exists "".
Qed.

Lemma tp_label_fixed s :
  Str.contains "_" s = false → Str.contains "-" s = false → tp_label s = s.
Proof.
  intros H_ H'. apply contains_char in H_, H'.
  rewrite tp_label_eq, H_. cbn [default from_option id]. by rewrite H'.
Qed.

(** The session label ends the timepoint name, has neither [_] nor [-], and
    parsing it again gives it back. *)
Theorem tp_label_suffix_without_separator tp :
  (∃ q, tp = q +:+ tp_label tp) ∧
  Str.contains "_" (tp_label tp) = false ∧
  Str.contains "-" (tp_label tp) = false ∧
  tp_label (tp_label tp) = tp_label tp.
Proof.
  pose proof (tp_label_no_separator tp) as [H_ H'].
  split; [|split; [done|split; [done|by apply tp_label_fixed]]].
  rewrite tp_label_eq.
  destruct (after_last_is_suffix "_" tp) as [q1 H1].
  destruct (after_last_is_suffix "-" (default tp (Str.after_last "_" tp)))
    as [q2 H2].
  exists (q1 +:+ q2). rewrite app_assoc_str, <- H2. exact H1.
Qed.

(** *** The first piece of a split *)

Lemma first_item_split_prefix sep s :
  ∃ t, s = Str.first_item (Str.split sep s) +:+ t.
Proof.
  induction s as [|x s IH]; [by exists ""|].
  destruct (String.prefix sep (String x s)) eqn:Hpre.
  - exists (String x s). unfold Str.split. cbn [Str.split_go].
    by rewrite Hpre.
  - rewrite first_item_split_later by done. destruct IH as [t Ht].
    exists t. by rewrite app_cons, <- Ht.
Qed.

Lemma first_item_split_no_sep sep s :
  sep ≠ "" → Str.contains sep (Str.first_item (Str.split sep s)) = false.
Proof.
  intros Hsep.
  destruct (Str.contains sep (Str.first_item (Str.split sep s))) eqn:E; [|done].
  exfalso. apply contains_inv in E as (a & b & Hab).
  destruct (first_item_split_prefix sep s) as [t Ht].
  assert (Hs : s = a +:+ sep +:+ (b +:+ t)).
  { rewrite Ht at 1. rewrite Hab. by rewrite !app_assoc_str. }
  destruct (first_item_split_spec sep s a (b +:+ t) Hsep Hs)
    as (u & _ & Ha & _).
  rewrite Hab in Ha.
  apply (f_equal String.length) in Ha. rewrite !length_app_str in Ha.
  destruct sep; [done|]. cbn in Ha. lia.
Qed.

Lemma contains_false_prefix p s :
  Str.contains p s = false → String.prefix p s = false.
Proof.
  destruct s; cbn [Str.contains]; intros H;
    by apply orb_false_iff in H as [? _].
Qed.

Lemma first_item_split_none sep s :
  Str.contains sep s = false → Str.first_item (Str.split sep s) = s.
Proof.
  induction s as [|x s IH]; intros H; [done|].
  rewrite first_item_split_later by by apply contains_false_prefix.
  rewrite IH; [done|]. cbn [Str.contains] in H.
  by apply orb_false_iff in H as [_ ?].
Qed.

(** The timepoint of an entry starts the entry's name and has no [.long.];
    it is the whole name exactly when the name has no [.long.]. *)
Theorem timepoint_of_prefix_without_long entry :
  (∃ rest, entry = timepoint_of entry +:+ rest) ∧
  Str.contains ".long." (timepoint_of entry) = false ∧
  (timepoint_of entry = entry ↔ Str.contains ".long." entry = false).
Proof.
  split; [apply first_item_split_prefix|].
  split; [by apply first_item_split_no_sep|]. split.
  - intros H. rewrite <- H. by apply first_item_split_no_sep.
  - apply first_item_split_none.
Qed.

(** *** Splitting and joining *)

Lemma split_go_nonempty sep s k : Str.split_go sep s k ≠ [].
Proof.
  revert k. induction s as [|x s IH]; intros k; [done|].
  cbn [Str.split_go]. destruct k as [|k]; [|apply IH].
  destruct (String.prefix sep (String x s)); [done|].
  by destruct (Str.split_go sep s 0).
Qed.

Lemma split_go_skip sep pre rest :
  Str.split_go sep (pre +:+ rest) (String.length pre)
  = Str.split_go sep rest 0.
Proof.
  induction pre as [|x pre IH]; [by destruct rest|].
  rewrite app_cons. cbn [Str.split_go String.length]. exact IH.
Qed.

Lemma join_cons_char sep x p ps :
  Str.join sep (String x p :: ps) = String x (Str.join sep (p :: ps)).
Proof. unfold Str.join. by destruct ps. Qed.

Lemma join_cons_more sep x p ps :
  Str.join sep (x :: p :: ps) = x +:+ sep +:+ Str.join sep (p :: ps).
Proof. reflexivity. Qed.

Lemma join_split_bounded sep n s :
  sep ≠ "" → String.length s ≤ n →
  Str.join sep (Str.split_go sep s 0) = s.
Proof.
  intros Hsep. revert s. induction n as [|n IH]; intros s Hn.
  - by destruct s; [|cbn in Hn; lia].
  - destruct s as [|x s]; [done|]. cbn [Str.split_go].
    destruct (String.prefix sep (String x s)) eqn:Hpre.
    + destruct (prefix_inv _ _ Hpre) as [rest Hrest].
      destruct sep as [|y sep]; [done|].
      rewrite app_cons in Hrest. injection Hrest as <- ->.
      cbn [String.length]. rewrite Nat.sub_succ, Nat.sub_0_r, split_go_skip.
      assert (Hlen : String.length rest ≤ n).
      { cbn in Hn. rewrite length_app_str in Hn. lia. }
      pose proof (IH rest Hlen) as Hj.
      pose proof (split_go_nonempty (String x sep) rest 0) as Hne.
      destruct (Str.split_go (String x sep) rest 0) as [|p ps]; [done|].
      by rewrite join_cons_more, Hj, app_nil_l, app_cons.
    + assert (Hlen : String.length s ≤ n) by (cbn in Hn; lia).
      pose proof (IH s Hlen) as Hj.
      pose proof (split_go_nonempty sep s 0) as Hne.
      destruct (Str.split_go sep s 0) as [|p ps]; [done|].
      by rewrite join_cons_char, Hj.
Qed.

(** Joining the pieces of a split with the separator gives the string back,
    and a split always has a piece: the [[0]] and [[-1]] of the script never
    fail. *)
Theorem join_split sep s (Hsep : sep ≠ "") :
  Str.join sep (Str.split sep s) = s ∧ Str.split sep s ≠ [].
Proof.
  split; [|apply split_go_nonempty].
  by apply (join_split_bounded sep (String.length s)).
Qed.

Lemma join_split_witness :
  ".long." ≠ "" ∧
  Str.join ".long." (Str.split ".long." "sub-01_ses-1.long.sub-01")
    = "sub-01_ses-1.long.sub-01" ∧
  Str.split ".long." "sub-01_ses-1.long.sub-01" ≠ [].
Proof.
  split; [discriminate|].
  exact (join_split ".long." "sub-01_ses-1.long.sub-01" ltac:(discriminate)).
Defined.

(** ** The read loop and [run] *)

Lemma printed_all reads :
  Forall (fun r => r ≠ ("", true)) reads →
  printed reads = map fst reads ++ [""].
Proof.
  induction 1 as [|[line exited] reads Hr _ IH]; [done|].
  cbn [printed map fst app]. rewrite IH.
  destruct (bool_decide (line = "") && exited) eqn:E; [|done].
  apply andb_true_iff in E as [E ->]. apply bool_decide_eq_true_1 in E as ->.
  done.
Qed.

Lemma printed_stop pre post :
  Forall (fun r => r ≠ ("", true)) pre →
  printed (pre ++ ("", true) :: post) = map fst pre ++ [""].
Proof.
  induction 1 as [|[line exited] reads Hr _ IH]; [done|].
  cbn [printed map fst app]. rewrite IH.
  destruct (bool_decide (line = "") && exited) eqn:E; [|done].
  apply andb_true_iff in E as [E ->]. apply bool_decide_eq_true_1 in E as ->.
  done.
Qed.

(** The read loop prints the lines it reads and ends with an empty line. An
    empty line read once the child has exited ends the loop: the lines that
    come after it are not printed. The loop raises nothing and touches
    nothing but the standard output. *)
Theorem read_loop_output before after w
  (Hbefore : Forall (fun r => r ≠ ("", true)) before) :
  read_loop before w =
    (Ok tt, World (environ w) (fs w)
              (stdout w ++ map fst before ++ [""]) (popen_calls w)) ∧
  read_loop (before ++ ("", true) :: after) w = read_loop before w.
Proof.
  rewrite !read_loop_eq. by rewrite printed_stop, printed_all.
Qed.

Lemma read_loop_output_witness :
  Forall (fun r => r ≠ ("", true)) [("a", false); ("", false); ("b", true)] ∧
  read_loop [("a", false); ("", false); ("b", true)] Demo.w0 =
    (Ok tt, World (environ Demo.w0) (fs Demo.w0)
              (stdout Demo.w0 ++ ["a"; ""; "b"] ++ [""])
              (popen_calls Demo.w0)) ∧
  read_loop ([("a", false); ("", false); ("b", true)]
             ++ ("", true) :: [("lost", true)]) Demo.w0
  = read_loop [("a", false); ("", false); ("b", true)] Demo.w0.
Proof.
  assert (H : Forall (fun r : string * bool => r ≠ ("", true))
                [("a", false); ("", false); ("b", true)]).
  { repeat constructor; discriminate. }
  split; [exact H|].
  exact (read_loop_output [("a", false); ("", false); ("b", true)]
           [("lost", true)] Demo.w0 H).
Defined.

(** [ignore_errors] decides only whether a non-zero exit status raises: the
    effect of [run] on the world is the same with and without it; with it a
    child that ends never makes [run] raise; and it does not cover a [Popen]
    that fails. *)
Theorem run_ignore_errors spawn command env w :
  (run spawn command env true w).2 = (run spawn command env false w).2 ∧
  match spawn command (merged_env env (environ w)) (fs w) with
  | Child _ _ _ => (run spawn command env true w).1 = Ok tt
  | SpawnError msg => (run spawn command env true w).1 = Raise (OSError msg)
  end.
Proof.
  rewrite !run_eq. cbn zeta.
  destruct (spawn command _ _) as [reads rc fs'|msg]; [|done].
  split; [done|]. unfold verdict. cbn [fst].
  by rewrite andb_false_r.
Qed.

Lemma merged_env_idem env e :
  merged_env env (merged_env env e) = merged_env env e.
Proof.
  apply map_eq. intros k. rewrite !merged_env_lookup.
  case_bool_decide; [done|]. by destruct (env !! k).
Qed.

(** Calling [run] again with the same overrides leaves [os.environ] as the
    first call left it. *)
Theorem run_twice_environ spawn command env ignore_errors
    command2 ignore_errors2 w :
  environ (run spawn command2 env ignore_errors2
             (run spawn command env ignore_errors w).2).2
  = environ (run spawn command env ignore_errors w).2.
Proof. rewrite !run_environ. apply merged_env_idem. Qed.

(** ** What the whole script keeps *)

Section Invariant.

Variable spawn : string -> gmap string string -> filesystem -> popen.
Variable args : arguments.
Variable Q : world -> Prop.

(** [Q] survives printing, and survives a call of [run] on one of the
    script's commands with no override. *)
Hypothesis Q_print : forall w out,
  Q w -> Q (World (environ w) (fs w) (stdout w ++ out) (popen_calls w)).
Hypothesis Q_run : forall w command fs' out,
  script_command command -> Q w ->
  Q (World (delete "DEBUG" (environ w)) fs' (stdout w ++ out)
       (popen_calls w ++ [(command, delete "DEBUG" (environ w))])).

Lemma preserves_ret {A} (a : A) : preserves Q (ret a).
Proof. by intros w H. Qed.

Lemma preserves_raise {A} e : preserves Q (@raise A e).
Proof. by intros w H. Qed.

Lemma preserves_bind {A B} (c : M A) (k : A -> M B) :
  preserves Q c -> (forall a, preserves Q (k a)) -> preserves Q (bind c k).
Proof.
  intros Hc Hk w H. unfold bind. specialize (Hc w H).
  destruct (c w) as [[a|e] w']; [by apply Hk|done].
Qed.

Lemma preserves_try {A} (body handler : M A) :
  preserves Q body -> preserves Q handler ->
  preserves Q (try_except body handler).
Proof.
  intros Hb Hh w H. unfold try_except. specialize (Hb w H).
  destruct (body w) as [[a|e] w']; [done|by apply Hh].
Qed.

Lemma preserves_read {A} (f : world -> A) :
  preserves Q (fun w => (Ok (f w), w)).
Proof. by intros w H. Qed.

Lemma preserves_print s : preserves Q (print s).
Proof. intros w H. by apply (Q_print w [s]). Qed.

Lemma preserves_environ_get key : preserves Q (environ_get key).
Proof. intros w H. unfold environ_get. by destruct (environ w !! key). Qed.

Lemma preserves_run command :
  script_command command -> preserves Q (run spawn command ∅ false).
Proof.
  intros Hc w H. rewrite run_eq. cbn zeta. rewrite merged_env_empty.
  destruct (spawn command _ _) as [reads rc fs'|msg]; cbn [snd].
  - by apply Q_run.
  - rewrite <- (List.app_nil_r (stdout w)). by apply Q_run.
Qed.

Lemma preserves_for_fold {A S} (l : list A) (body : A -> S -> M S) s :
  (forall x s, preserves Q (body x s)) -> preserves Q (for_fold l body s).
Proof.
  intros Hb. revert s. induction l as [|x l IH]; intros s.
  - apply preserves_ret.
  - cbn [for_fold]. apply preserves_bind; [apply Hb|apply IH].
Qed.

Lemma preserves_for_each {A} (l : list A) (body : A -> M unit) :
  (forall x, preserves Q (body x)) -> preserves Q (for_each l body).
Proof.
  intros Hb. induction l as [|x l IH].
  - apply preserves_ret.
  - cbn [for_each]. apply preserves_bind; [apply Hb|done].
Qed.

Ltac preserves_step :=
  first
    [ apply preserves_ret | apply preserves_raise | apply preserves_print
    | apply preserves_environ_get
    | apply (preserves_read (fun w => Path.exists_ (fs w) _))
    | apply (preserves_read (fun w => Glob.glob (fs w) _ _))
    | apply preserves_bind; [|intros ?]
    | apply preserves_try
    | match goal with
      | |- preserves _ (if ?b then _ else _) => destruct b
      end ].

Lemma recon_all_script_command tp subject_label od n :
  script_command (recon_all tp subject_label od n).
Proof. right. apply (prefix_app "recon-all -long "). Qed.

Lemma preserves_timepoint subject_label tp tps :
  preserves Q (timepoint spawn args subject_label tp tps).
Proof.
  unfold timepoint. cbn zeta.
  repeat first [ apply preserves_run, recon_all_script_command
               | preserves_step ].
Qed.

Lemma preserves_subject subject_label :
  preserves Q (subject spawn args subject_label).
Proof.
  unfold subject, timepoints_loop.
  apply preserves_bind; [apply preserves_read|intros timepoints].
  repeat first [ apply preserves_for_fold; intros ? ?; apply preserves_timepoint
               | preserves_step ].
Qed.

Lemma preserves_provide asset announce :
  preserves Q (provide spawn args asset announce).
Proof.
  unfold provide.
  repeat first [ apply preserves_run; left; apply (prefix_app "cp -rf ")
               | preserves_step ].
Qed.

Lemma preserves_main : preserves Q (main spawn args).
Proof.
  unfold main. destruct (analysis_level args).
  apply preserves_bind.
  { destruct (participant_label args) as [[|? ?]|];
      first [apply preserves_ret | apply preserves_read]. }
  intros subjects.
  repeat first [ apply preserves_provide
               | apply preserves_for_each; intros ?; apply preserves_subject
               | preserves_step ].
Qed.

End Invariant.

(** What a run of the script has done, seen from the world [w0] it started
    in: the commands it started, their environment, and what is left of
    [os.environ] and of the file system. *)
Lemma main_effects spawn args w0 :
  ∃ extra out,
    popen_calls (main spawn args w0).2 = popen_calls w0 ++ extra ∧
    stdout (main spawn args w0).2 = stdout w0 ++ out ∧
    Forall (fun c => script_command c.1 ∧ c.2 = delete "DEBUG" (environ w0))
           extra ∧
    match extra with
    | [] => environ (main spawn args w0).2 = environ w0 ∧
            fs (main spawn args w0).2 = fs w0
    | _ => environ (main spawn args w0).2 = delete "DEBUG" (environ w0)
    end.
Proof.
  apply (preserves_main spawn args (fun w =>
    ∃ extra out,
      popen_calls w = popen_calls w0 ++ extra ∧
      stdout w = stdout w0 ++ out ∧
      Forall (fun c => script_command c.1 ∧ c.2 = delete "DEBUG" (environ w0))
             extra ∧
      match extra with
      | [] => environ w = environ w0 ∧ fs w = fs w0
      | _ => environ w = delete "DEBUG" (environ w0)
      end)).
  - intros w out (extra & out0 & Hc & Ho & Hf & He).
    exists extra, (out0 ++ out). cbn [popen_calls stdout environ fs].
    rewrite Ho, <- (assoc_L (++)). done.
  - intros w command fs' out Hcmd (extra & out0 & Hc & Ho & Hf & He).
    assert (Hd : delete "DEBUG" (environ w) = delete "DEBUG" (environ w0)).
    { destruct extra; [by destruct He as [-> _]|].
      rewrite He. apply delete_delete_eq. }
    exists (extra ++ [(command, delete "DEBUG" (environ w))]), (out0 ++ out).
    cbn [popen_calls stdout environ fs].
    rewrite Hc, Ho, <- !(assoc_L (++)). split; [done|]. split; [done|].
    split.
    + apply Forall_app. split; [done|]. by apply Forall_singleton.
    + by destruct extra.
  - exists [], []. by rewrite !List.app_nil_r.
Qed.

(** Every child the script starts is a [cp -rf] or a [recon-all -long]
    command, and all of them get the same environment: the one the script was
    started in, without [DEBUG]. *)
Theorem main_children spawn args w :
  ∃ extra,
    popen_calls (main spawn args w).2 = popen_calls w ++ extra ∧
    Forall (fun c => script_command c.1 ∧ c.2 = delete "DEBUG" (environ w))
           extra.
Proof.
  destruct (main_effects spawn args w) as (extra & out & Hc & _ & Hf & _).
  by exists extra.
Qed.

(** The script itself writes nothing: when it starts no command, the file
    system and [os.environ] are at the end what they were at the start. *)
Theorem main_without_command spawn args w
  (Hnone : popen_calls (main spawn args w).2 = popen_calls w) :
  fs (main spawn args w).2 = fs w ∧
  environ (main spawn args w).2 = environ w.
Proof.
  destruct (main_effects spawn args w) as (extra & out & Hc & _ & _ & He).
  rewrite Hc in Hnone.
  rewrite <- (List.app_nil_r (popen_calls w)) in Hnone at 2.
  apply (inj _) in Hnone. subst extra. by destruct He.
Qed.

Lemma main_without_command_witness :
  popen_calls (main Demo.spawn_fail (Demo.args0 ["02"]) Demo.w0).2
    = popen_calls Demo.w0 ∧
  fs (main Demo.spawn_fail (Demo.args0 ["02"]) Demo.w0).2 = fs Demo.w0 ∧
  environ (main Demo.spawn_fail (Demo.args0 ["02"]) Demo.w0).2
    = environ Demo.w0.
Proof.
  assert (H : popen_calls (main Demo.spawn_fail (Demo.args0 ["02"]) Demo.w0).2
              = popen_calls Demo.w0) by (vm_compute; reflexivity).
  split; [exact H|].
  exact (main_without_command Demo.spawn_fail (Demo.args0 ["02"]) Demo.w0 H).
Defined.

(** [os.environ] after the script: unchanged when no command was started,
    and otherwise the initial one without [DEBUG]. No other variable is ever
    set, changed or removed. *)
Theorem main_environ spawn args w :
  environ (main spawn args w).2 =
  if bool_decide (popen_calls (main spawn args w).2 = popen_calls w)
  then environ w
  else delete "DEBUG" (environ w).
Proof.
  destruct (main_effects spawn args w) as (extra & out & Hc & _ & _ & He).
  rewrite Hc. destruct extra as [|c extra].
  - rewrite List.app_nil_r, bool_decide_eq_true_2 by done. by destruct He.
  - rewrite bool_decide_eq_false_2; [done|]. intros H.
    rewrite <- (List.app_nil_r (popen_calls w)) in H at 2.
    by apply (inj _) in H.
Qed.

(** ** The commands of the loop over the timepoints *)

Lemma timepoint_calls spawn args subject_label tp tps w :
  ∃ extra,
    popen_calls (timepoint spawn args subject_label tp tps w).2
      = popen_calls w ++ extra ∧
    (extra = [] ∨
     extra = [(recon_all tp subject_label (output_dir args) (n_cpus args),
               delete "DEBUG" (environ w))]).
Proof.
  unfold timepoint. cbn zeta.
  unfold bind at 1 2, path_exists at 1 2.
  destruct (_ && _).
  { exists []. split; [|by left]. cbn. by rewrite List.app_nil_r. }
  eexists. split; [|by right].
  unfold bind at 1 2 3, print at 1 2, try_except, bind at 1. cbn [fst snd].
  rewrite run_eq. cbn zeta. cbn [environ fs stdout popen_calls].
  rewrite merged_env_empty.
  destruct (spawn _ _ _) as [reads rc fs'|msg].
  - unfold verdict.
    destruct (negb (bool_decide (rc = 0%Z)) && negb false).
    + unfold bind, print, ret, raise. cbn [fst snd].
      repeat match goal with
             | |- context [if ?b then _ else _] => destruct b
             end; reflexivity.
    + unfold bind, print, ret, raise, path_exists. cbn [fst snd fs].
      repeat match goal with
             | |- context [if ?b then _ else _] => destruct b
             end; reflexivity.
  - unfold bind, print, ret, raise. cbn [fst snd].
    repeat match goal with
           | |- context [if ?b then _ else _] => destruct b
           end; reflexivity.
Qed.

(** The loop starts at most one command per timepoint, in the order of the
    timepoints, and each is the [recon-all] command of its timepoint: a
    timepoint is never tried twice. *)
Theorem timepoints_loop_commands spawn args subject_label timepoints w :
  ∃ extra,
    popen_calls (timepoints_loop spawn args subject_label timepoints w).2
      = popen_calls w ++ extra ∧
    map fst extra `sublist_of`
      map (fun tp => recon_all tp subject_label (output_dir args) (n_cpus args))
          timepoints.
Proof.
  unfold timepoints_loop. generalize (@nil string, @nil string).
  revert w. induction timepoints as [|tp tl IH]; intros w tps.
  - exists []. by rewrite List.app_nil_r.
  - cbn [for_fold map]. unfold bind.
    destruct (timepoint_calls spawn args subject_label tp tps w)
      as (extra1 & Htp & Hextra).
    destruct (timepoint spawn args subject_label tp tps w) as [[tps'|e] w'];
      cbn [snd] in Htp.
    + destruct (IH w' tps') as (extra & -> & Hsub). rewrite Htp.
      exists (extra1 ++ extra). rewrite (assoc_L (++)). split; [done|].
      destruct Hextra as [->| ->]; cbn [app map fst].
      * by apply sublist_cons.
      * by apply sublist_skip.
    + cbn [snd]. exists extra1. split; [done|].
      destruct Hextra as [->| ->]; cbn [map fst].
      * apply sublist_nil_l.
      * apply sublist_skip, sublist_nil_l.
Qed.

(** ** The shared templates *)

Lemma provide_present_eq spawn args asset announce w :
  Path.exists_ (fs w) (Path.join (output_dir args) asset) = true →
  provide spawn args asset announce w = (Ok tt, w).
Proof. intros Hthere. unfold provide, bind, path_exists. by rewrite Hthere. Qed.

Lemma provide_missing_run spawn args asset announce w subjects_dir :
  Path.exists_ (fs w) (Path.join (output_dir args) asset) = false →
  environ w !! "SUBJECTS_DIR" = Some subjects_dir →
  provide spawn args asset announce w =
  run spawn ("cp -rf " +:+ Path.join subjects_dir asset +:+ " " +:+
             Path.join (output_dir args) asset) ∅ false
    (if announce
     then World (environ w) (fs w)
            (stdout w ++ ["try to copy " +:+ asset +:+ " folder " +:+
                          output_dir args]) (popen_calls w)
     else w).
Proof.
  intros Hmissing Hset.
  unfold provide, bind at 1 2 3, path_exists, environ_get.
  rewrite Hmissing. cbn [negb]. destruct announce.
  - unfold print. cbn [environ]. by rewrite Hset.
  - unfold ret. by rewrite Hset.
Qed.

(** A template that is already in the output directory is left alone: no
    message, no command, no look at [SUBJECTS_DIR]. *)
Theorem provide_present spawn args asset announce w
  (Hthere : Path.exists_ (fs w) (Path.join (output_dir args) asset) = true) :
  provide spawn args asset announce w = (Ok tt, w).
Proof. by apply provide_present_eq. Qed.

Lemma provide_present_witness :
  Path.exists_ (fs Demo.w0) (Path.join "/out" "fsaverage") = true ∧
  provide Demo.spawn_fail (Demo.args0 ["01"]) "fsaverage" true Demo.w0
  = (Ok tt, Demo.w0).
Proof.
  split; [reflexivity|].
  exact (provide_present Demo.spawn_fail (Demo.args0 ["01"]) "fsaverage" true
           Demo.w0 eq_refl).
Defined.

(** A missing template with no [SUBJECTS_DIR] in the environment: the lookup
    raises [KeyError] before any command is started; for the first template
    the announcement is already printed. *)
Theorem provide_without_subjects_dir spawn args asset announce w
  (Hmissing : Path.exists_ (fs w) (Path.join (output_dir args) asset) = false)
  (Hunset : environ w !! "SUBJECTS_DIR" = None) :
  provide spawn args asset announce w =
  (Raise (KeyError "SUBJECTS_DIR"),
   if announce
   then World (environ w) (fs w)
          (stdout w ++ ["try to copy " +:+ asset +:+ " folder " +:+
                        output_dir args]) (popen_calls w)
   else w).
Proof.
  unfold provide, bind, path_exists, environ_get.
  rewrite Hmissing. cbn [negb]. destruct announce.
  - unfold print. cbn [environ]. by rewrite Hunset.
  - unfold ret. by rewrite Hunset.
Qed.

Lemma provide_without_subjects_dir_witness :
  Path.exists_ (fs (World ∅ Demo.fs_empty [] []))
    (Path.join "/out" "fsaverage") = false ∧
  environ (World ∅ Demo.fs_empty [] []) !! "SUBJECTS_DIR" = None ∧
  provide Demo.spawn_fail (Demo.args0 ["01"]) "fsaverage" true
    (World ∅ Demo.fs_empty [] [])
  = (Raise (KeyError "SUBJECTS_DIR"),
     World ∅ Demo.fs_empty ["try to copy fsaverage folder /out"] []).
Proof.
  split; [reflexivity|]. split; [reflexivity|].
  exact (provide_without_subjects_dir Demo.spawn_fail (Demo.args0 ["01"])
           "fsaverage" true (World ∅ Demo.fs_empty [] []) eq_refl eq_refl).
Defined.

(** A missing template is copied with one [cp -rf] from [SUBJECTS_DIR] to the
    output directory, and a copy that exits with a status other than zero
    raises: the failure is not ignored. *)
Theorem provide_copies spawn args asset announce w subjects_dir reads
    returncode fs'
  (Hmissing : Path.exists_ (fs w) (Path.join (output_dir args) asset) = false)
  (Hset : environ w !! "SUBJECTS_DIR" = Some subjects_dir)
  (Hcopy : spawn ("cp -rf " +:+ Path.join subjects_dir asset +:+ " " +:+
                  Path.join (output_dir args) asset)
             (delete "DEBUG" (environ w)) (fs w)
           = Child reads returncode fs') :
  let r := provide spawn args asset announce w in
  r.1 = (if bool_decide (returncode = 0%Z) then Ok tt
         else Raise (Exception ("Non zero return code: " +:+
                                Str.of_int returncode))) ∧
  fs r.2 = fs' ∧
  popen_calls r.2 =
    popen_calls w ++
    [("cp -rf " +:+ Path.join subjects_dir asset +:+ " " +:+
      Path.join (output_dir args) asset, delete "DEBUG" (environ w))].
Proof.
  cbn zeta. rewrite (provide_missing_run _ _ _ _ _ _ Hmissing Hset), run_eq.
  cbn zeta. rewrite merged_env_empty.
  assert (Hw : ∀ out, (if announce
                 then World (environ w) (fs w) (stdout w ++ out) (popen_calls w)
                 else w) = World (environ w) (fs w)
                             (if announce then stdout w ++ out else stdout w)
                             (popen_calls w)).
  { intros out. by destruct announce, w. }
  rewrite Hw. cbn [environ fs popen_calls]. rewrite Hcopy.
  cbn [fst snd fs popen_calls].
  split; [|done]. unfold verdict. by case_bool_decide.
Qed.

Lemma provide_copies_witness :
  let w := World Demo.environ0 Demo.fs_empty [] [] in
  Path.exists_ (fs w) (Path.join "/out" "rh.EC_average") = false ∧
  environ w !! "SUBJECTS_DIR" = Some "/opt/freesurfer/subjects" ∧
  let r := provide Demo.spawn_fail (Demo.args0 ["01"]) "rh.EC_average" false w in
  r.1 = (if bool_decide (1%Z = 0%Z) then Ok tt
         else Raise (Exception ("Non zero return code: " +:+ Str.of_int 1))) ∧
  fs r.2 = Demo.fs_empty ∧
  popen_calls r.2 =
    popen_calls w ++
    [("cp -rf " +:+ Path.join "/opt/freesurfer/subjects" "rh.EC_average" +:+
      " " +:+ Path.join "/out" "rh.EC_average",
      delete "DEBUG" (environ w))].
Proof.
  intros w. split; [reflexivity|]. split; [reflexivity|].
  exact (provide_copies Demo.spawn_fail (Demo.args0 ["01"]) "rh.EC_average"
           false w "/opt/freesurfer/subjects"
           [("recon-all exited with ERRORS", true)] 1 Demo.fs_empty
           eq_refl eq_refl eq_refl).
Defined.

(** ** The whole run *)

(** A copy of the first template that fails ends the run: the error carries
    the exit status of [cp], the other templates are not tried and no
    subject is looked at. *)
Theorem main_copy_failure spawn args w subjects_dir reads returncode fs'
  (Hentries : Glob.glob (fs w) (output_dir args) "*" ≠ [])
  (Hmissing : Path.exists_ (fs w) (Path.join (output_dir args) "fsaverage")
              = false)
  (Hset : environ w !! "SUBJECTS_DIR" = Some subjects_dir)
  (Hcopy : spawn ("cp -rf " +:+ Path.join subjects_dir "fsaverage" +:+ " " +:+
                  Path.join (output_dir args) "fsaverage")
             (delete "DEBUG" (environ w)) (fs w)
           = Child reads returncode fs')
  (Hstatus : returncode ≠ 0%Z) :
  (main spawn args w).1
    = Raise (Exception ("Non zero return code: " +:+ Str.of_int returncode)) ∧
  popen_calls (main spawn args w).2 =
    popen_calls w ++
    [("cp -rf " +:+ Path.join subjects_dir "fsaverage" +:+ " " +:+
      Path.join (output_dir args) "fsaverage", delete "DEBUG" (environ w))].
Proof.
  assert (Hrest : ∃ w', main spawn args w =
      (Raise (Exception ("Non zero return code: " +:+ Str.of_int returncode)),
       w') ∧
    popen_calls w' =
      popen_calls w ++
      [("cp -rf " +:+ Path.join subjects_dir "fsaverage" +:+ " " +:+
        Path.join (output_dir args) "fsaverage", delete "DEBUG" (environ w))]).
  { unfold main. destruct (analysis_level args).
    destruct (participant_label args) as [[|label labels]|];
      unfold bind at 1; cbn [ret];
      unfold bind at 1 2, glob, print at 1;
      rewrite bool_decide_eq_false_2 by done;
      unfold bind at 1;
      rewrite (provide_missing_run spawn args "fsaverage" true _ subjects_dir)
        by done;
      rewrite run_eq; cbn zeta; cbn [environ fs stdout popen_calls];
      rewrite merged_env_empty, Hcopy; unfold verdict;
      rewrite bool_decide_eq_false_2 by done;
      cbn [negb andb]; eauto. }
  destruct Hrest as (w' & -> & Hcalls). done.
Qed.

Lemma main_copy_failure_witness :
  let w := World Demo.environ0 Demo2.fs_fresh [] [] in
  (main Demo.spawn_fail (Demo.args0 ["01"]) w).1
    = Raise (Exception ("Non zero return code: " +:+ Str.of_int 1)) ∧
  popen_calls (main Demo.spawn_fail (Demo.args0 ["01"]) w).2 =
    popen_calls w ++
    [("cp -rf " +:+ Path.join "/opt/freesurfer/subjects" "fsaverage" +:+ " " +:+
      Path.join "/out" "fsaverage", delete "DEBUG" (environ w))].
Proof.
  intros w.
  apply (main_copy_failure Demo.spawn_fail (Demo.args0 ["01"]) w
           "/opt/freesurfer/subjects"
           [("recon-all exited with ERRORS", true)] 1 Demo2.fs_fresh).
  - vm_compute. discriminate.
  - reflexivity.
  - reflexivity.
  - reflexivity.
  - discriminate.
Defined.





(** A timepoint that is not complete, whose command exits with status zero
    and leaves both files: its label joins [good_tps], nothing is raised, one
    command was started and the loop goes on. *)
Theorem timepoint_computed spawn args subject_label tp good_tps w reads fs'
  (Htodo : both_exist (fs w)
             (surf_dir (output_dir args) subject_label (tp_label tp)) = false)
  (Hrun : spawn (recon_all tp subject_label (output_dir args) (n_cpus args))
            (delete "DEBUG" (environ w)) (fs w) = Child reads 0 fs')
  (Hdone : both_exist fs'
             (surf_dir (output_dir args) subject_label (tp_label tp)) = true) :
  ∃ out,
    timepoint spawn args subject_label tp (good_tps, []) w =
    (Ok (good_tps ++ [tp_label tp], []),
     World (delete "DEBUG" (environ w)) fs' out
       (popen_calls w ++
        [(recon_all tp subject_label (output_dir args) (n_cpus args),
          delete "DEBUG" (environ w))])).
Proof. exact (timepoint_succeeds _ _ _ _ _ _ _ _ Htodo Hrun Hdone). Qed.

Lemma timepoint_computed_witness :
  ∃ out,
    timepoint Demo.spawn_first (Demo.args0 ["03"]) "03" "sub-03_ses-1"
      ([], []) Demo.w0 =
    (Ok ([] ++ [tp_label "sub-03_ses-1"], []),
     World (delete "DEBUG" (environ Demo.w0))
       (list_to_map (Demo.lgi "sub-03_ses-1.long.sub-03") ∪ Demo.fs0) out
       (popen_calls Demo.w0 ++
        [(recon_all "sub-03_ses-1" "03" "/out" 2,
          delete "DEBUG" (environ Demo.w0))])).
Proof.
  apply (timepoint_computed Demo.spawn_first (Demo.args0 ["03"]) "03"
           "sub-03_ses-1" [] Demo.w0
           [("recon-all finished without error", true)]
           (list_to_map (Demo.lgi "sub-03_ses-1.long.sub-03") ∪ Demo.fs0)).
  - vm_compute. reflexivity.
  - vm_compute. reflexivity.
  - vm_compute. reflexivity.
Defined.

(** ** The subjects found in the output directory *)

Lemma label_no_separator b :
  let label := Str.last_item (Str.split "-" (Str.first_item (Str.split "_" b))) in
  Str.contains "-" label = false ∧ Str.contains "_" label = false.
Proof.
  cbn zeta. rewrite last_item_split_char.
  set (head := Str.first_item (Str.split "_" b)).
  assert (Hhead : Str.after_last "_" head = None).
  { apply contains_char. by apply first_item_split_no_sep. }
  split; apply contains_char; [apply after_last_idem|].
  destruct (after_last_is_suffix "-" head) as [q Hq].
  rewrite Hq in Hhead. by apply after_last_None_suffix in Hhead.
Qed.

(** Without [--participant_label], the subjects come from the entries
    [sub-*] of the output directory: each label once, and no label has a
    [-] or a [_]. *)
Theorem subjects_of_distinct fs output_dir :
  NoDup (subjects_of fs output_dir) ∧
  Forall (fun label => Str.contains "-" label = false ∧
                       Str.contains "_" label = false)
         (subjects_of fs output_dir).
Proof.
  split; [apply NoDup_elements|].
  apply Forall_forall. intros label H. unfold subjects_of in H.
  apply elem_of_elements, elem_of_list_to_set, list_elem_of_In, in_map_iff in H
    as (dir & <- & _).
  apply label_no_separator.
Qed.

(** ** Names that follow the convention *)

Lemma first_item_split_at c sep' p r :
  Str.after_last c p = None →
  Str.first_item (Str.split (String c sep') (p +:+ String c sep' +:+ r)) = p.
Proof.
  induction p as [|x p IH]; intros Hp.
  - rewrite app_nil_l. apply first_item_split_here; [done|apply prefix_app].
  - cbn [Str.after_last] in Hp.
    destruct (Str.after_last c p) eqn:E; [done|].
    case_bool_decide as Hx; [done|].
    rewrite app_cons, first_item_split_later.
    + by rewrite IH.
    + cbn [String.prefix]. destruct (ascii_dec c x); [by subst|done].
Qed.

Lemma after_last_app_None c a b :
  Str.after_last c a = None → Str.after_last c b = None →
  Str.after_last c (a +:+ b) = None.
Proof. intros Ha Hb. by rewrite after_last_app, Ha, Hb. Qed.

(** For a subject and a session label without [_], [-] and [.], the name
    [sub-<sub>_ses-<ses>.long.sub-<sub>] reads back as it was built: its
    timepoint is [sub-<sub>_ses-<ses>], the session label is [<ses>], the
    subject label is [<sub>], and the directory the script rebuilds for the
    completion check is the entry itself. *)
Theorem long_name_round_trip sub ses
  (Hsub : plain_label sub) (Hses : plain_label ses) :
  timepoint_of (long_name sub ses) = "sub-" +:+ sub +:+ "_ses-" +:+ ses ∧
  tp_label (timepoint_of (long_name sub ses)) = ses ∧
  Str.last_item (Str.split "-"
    (Str.first_item (Str.split "_" (long_name sub ses)))) = sub ∧
  long_name sub (tp_label (timepoint_of (long_name sub ses)))
    = long_name sub ses.
Proof.
  destruct Hsub as (Hsub_ & Hsub' & Hsubd), Hses as (Hses_ & Hses' & Hsesd).
  assert (Htp : timepoint_of (long_name sub ses)
                = "sub-" +:+ sub +:+ "_ses-" +:+ ses).
  { unfold timepoint_of.
    assert (E : long_name sub ses
                = ("sub-" +:+ sub +:+ "_ses-" +:+ ses) +:+ ".long."
                  +:+ ("sub-" +:+ sub)).
    { unfold long_name. by rewrite !app_assoc_str. }
    rewrite E. apply (first_item_split_at "." "long.").
    apply contains_char in Hsubd, Hsesd.
    repeat apply after_last_app_None; done. }
  assert (Hlabel : tp_label ("sub-" +:+ sub +:+ "_ses-" +:+ ses) = ses).
  { rewrite <- (app_assoc_str "sub-"). by apply tp_label_session. }
  split; [done|]. rewrite Htp, Hlabel. split; [done|]. split; [|done].
  apply contains_char in Hsub_, Hsub'.
  assert (Hfirst : Str.first_item (Str.split "_" (long_name sub ses))
                   = "sub-" +:+ sub).
  { assert (E : long_name sub ses
                = ("sub-" +:+ sub) +:+ "_"
                  +:+ ("ses-" +:+ ses +:+ ".long.sub-" +:+ sub)).
    { unfold long_name. by rewrite !app_assoc_str. }
    rewrite E. apply (first_item_split_at "_" "").
    by apply after_last_app_None. }
  rewrite Hfirst, last_item_split_char.
  change ("sub-" +:+ sub) with ("sub" +:+ String "-" sub).
  by rewrite after_last_app, after_last_cons_same, Hsub'.
Qed.

Lemma long_name_round_trip_witness :
  plain_label "01" ∧ plain_label "pre" ∧
  timepoint_of (long_name "01" "pre") = "sub-" +:+ "01" +:+ "_ses-" +:+ "pre" ∧
  tp_label (timepoint_of (long_name "01" "pre")) = "pre" ∧
  Str.last_item (Str.split "-"
    (Str.first_item (Str.split "_" (long_name "01" "pre")))) = "01" ∧
  long_name "01" (tp_label (timepoint_of (long_name "01" "pre")))
    = long_name "01" "pre".
Proof.
  assert (H1 : plain_label "01") by (repeat split; reflexivity).
  assert (H2 : plain_label "pre") by (repeat split; reflexivity).
  split; [exact H1|]. split; [exact H2|].
  exact (long_name_round_trip "01" "pre" H1 H2).
Defined.

(** ** A subject label that starts another *)

Lemma fnmatch_go_star_extend q d name :
  Glob.fnmatch_go (String "*" q) name = true →
  Glob.fnmatch_go (String "*" q) (String d name) = true.
Proof. intros H. rewrite fnmatch_go_star, H. apply orb_true_r. Qed.

Lemma fnmatch_go_absorb x q name :
  Glob.fnmatch_go (x +:+ String "*" q) name = true →
  Glob.fnmatch_go (String "*" q) name = true.
Proof.
  revert name. induction x as [|c x IH]; intros name; [done|].
  rewrite app_cons. destruct (decide (c = "*"%char)) as [->|Hc].
  - induction name as [|d name IHname]; rewrite fnmatch_go_star; intros H;
      apply orb_true_iff in H as [H|H]; try done;
      first [ by apply IH | by apply fnmatch_go_star_extend, IHname ].
  - intros H. destruct (fnmatch_go_cons _ _ _ H) as [?|(d & name' & -> & H')];
      [done|]. by apply fnmatch_go_star_extend, IH.
Qed.

Lemma fnmatch_go_prefix_mono p a b :
  (∀ name, Glob.fnmatch_go a name = true → Glob.fnmatch_go b name = true) →
  ∀ name, Glob.fnmatch_go (p +:+ a) name = true →
          Glob.fnmatch_go (p +:+ b) name = true.
Proof.
  intros Hab. induction p as [|c p IH]; intros name; [apply Hab|].
  rewrite !app_cons. destruct (decide (c = "*"%char)) as [->|Hc].
  - induction name as [|d name IHname];
      rewrite (fnmatch_go_star (p +:+ a)), (fnmatch_go_star (p +:+ b));
      intros H; apply orb_true_iff in H as [H|H]; try done.
    + by rewrite (IH _ H).
    + by rewrite (IH _ H).
    + rewrite (IHname H). apply orb_true_r.
  - cbn [Glob.fnmatch_go]. rewrite !(bool_decide_eq_false_2 (c = "*"%char)) by done.
    destruct (bool_decide (c = "?"%char)); destruct name as [|d name];
      try done; [apply IH|].
    intros H. apply andb_true_iff in H as [-> H]. by rewrite (IH _ H).
Qed.

Lemma long_entries_label_prefix fs output_dir subject_label more :
  long_entries fs output_dir (subject_label +:+ more)
    ⊆ long_entries fs output_dir subject_label ∧
  discover fs output_dir (subject_label +:+ more)
    ⊆ discover fs output_dir subject_label.
Proof.
  assert (Hentries : long_entries fs output_dir (subject_label +:+ more)
                     ⊆ long_entries fs output_dir subject_label).
  { intros entry H. unfold long_entries in *.
    apply list_elem_of_filter in H as [Hmatch H].
    apply list_elem_of_filter. split; [|done].
    unfold Glob.fnmatch in *.
    rewrite <- (app_assoc_str "sub-") in Hmatch |- *.
    rewrite <- (app_assoc_str "sub-" subject_label more) in Hmatch.
    rewrite (app_assoc_str (_ +:+ subject_label) more) in Hmatch.
    revert Hmatch. apply fnmatch_go_prefix_mono.
    intros name. apply (fnmatch_go_absorb more ".long.*"). }
  split; [done|].
  intros tp H. rewrite discover_eq in *. unfold Str.sorted in *.
  rewrite merge_sort_Permutation in H |- *.
  apply list_elem_of_In, in_map_iff in H as (b & <- & H).
  apply in_map_iff in H as (p & <- & H).
  apply in_map_iff in H as (entry & <- & H).
  apply list_elem_of_In. apply in_map, in_map, in_map.
  apply list_elem_of_In, Hentries. by apply list_elem_of_In.
Qed.

(** ** A complete timepoint outside the naming convention *)

(** C2 as stated fails: the only entry of subject 09 holds both files in its
    own [surf] directory, yet its session label [pre-op] is read as [op], the
    script looks into [sub-09_ses-op.long.sub-09], finds nothing, starts
    [recon-all] for the timepoint and, the command failing, raises. *)
Lemma complete_timepoint_recomputed :
  let entry := "sub-09_ses-pre-op.long.sub-09" in
  let r := timepoint Demo.spawn_fail (Demo.args0 ["09"]) "09"
             (timepoint_of entry) ([], []) Demo3.w_preop in
  discover Demo3.fs_preop "/out" "09" = [timepoint_of entry] ∧
  both_exist Demo3.fs_preop (Path.join (Path.join "/out" entry) "surf")
    = true ∧
  surf_dir "/out" "09" (tp_label (timepoint_of entry))
    = "/out/sub-09_ses-op.long.sub-09/surf" ∧
  map fst (popen_calls r.2)
    = ["recon-all -long sub-09_ses-pre-op sub-09 -sd /out -localGI -parallel -openmp 2"] ∧
  r.1 = Raise (Exception "Timpoints failed for 09: op").
Proof. vm_compute. done. Qed.

(** ** What stands before a separator *)

Lemma tp_label_after_underscore a s :
  tp_label (a +:+ String "_" s) = tp_label s.
Proof.
  rewrite !tp_label_eq, after_last_app, after_last_cons_same. done.
Qed.

Lemma tp_label_after_hyphen a s :
  tp_label (a +:+ String "-" s) = tp_label s.
Proof.
  rewrite !tp_label_eq. rewrite (after_last_app "_" a (String "-" s)).
  assert (Hd : Str.after_last "_" (String "-" s) = Str.after_last "_" s).
  { cbn. by destruct (Str.after_last "_" s). }
  rewrite Hd.
  destruct (Str.after_last "_" s) as [t|] eqn:E; [done|].
  assert (Hu : ∃ a', default (a +:+ String "-" s)
                ((fun t => t +:+ String "-" s) <$> Str.after_last "_" a)
                = a' +:+ String "-" s).
  { destruct (Str.after_last "_" a) as [a'|]; cbn; eauto. }
  destruct Hu as [a' ->].
  rewrite after_last_app, after_last_cons_same. done.
Qed.

(** A timepoint name is its own session label exactly when it has no
    separator; and what stands before a [_] or a [-] does not count: two
    names that differ only before a separator have the same label. *)
Theorem tp_label_ignores_prefix tp a b s :
  (tp_label tp = tp ↔
   Str.contains "_" tp = false ∧ Str.contains "-" tp = false) ∧
  tp_label (a +:+ String "_" s) = tp_label s ∧
  tp_label (a +:+ String "-" s) = tp_label s ∧
  tp_label (a +:+ String "_" s) = tp_label (b +:+ String "_" s) ∧
  tp_label (a +:+ String "-" s) = tp_label (b +:+ String "-" s).
Proof.
  rewrite !tp_label_after_underscore, !tp_label_after_hyphen.
  split; [|done]. split.
  - intros H. rewrite <- H. apply tp_label_no_separator.
  - intros [H_ H']. by apply tp_label_fixed.
Qed.

(** ** The first failure, wherever it comes *)

Lemma for_fold_app {A S} (l1 l2 : list A) (body : A -> S -> M S) s w :
  for_fold (l1 ++ l2) body s w =
  bind (for_fold l1 body s) (fun s' => for_fold l2 body s') w.
Proof.
  revert s w. induction l1 as [|x l1 IH]; intros s w; [done|].
  cbn [app for_fold]. unfold bind.
  destruct (body x s w) as [[s'|e] w']; [|done]. by rewrite IH.
Qed.

(** The loop body returns only with [bad_tps] empty. *)
Lemma timepoint_ok_bad_empty spawn args subject_label tp good_tps w tps' w' :
  timepoint spawn args subject_label tp (good_tps, []) w = (Ok tps', w') →
  tps'.2 = [].
Proof.
  unfold timepoint. cbn zeta.
  unfold bind at 1 2, path_exists at 1 2.
  destruct (_ && _).
  { unfold bind, print, ret. cbn. by intros [= <- _]. }
  unfold bind at 1 2 3, print at 1 2, try_except, bind at 1. cbn [fst snd].
  rewrite run_eq. cbn zeta. cbn [environ fs stdout popen_calls].
  destruct (spawn _ _ _) as [reads rc fs'|msg].
  - unfold verdict.
    destruct (negb (bool_decide (rc = 0%Z)) && negb false).
    + unfold bind, print, ret, raise. cbn [fst snd].
      repeat match goal with
             | |- context [if ?b then _ else _] => destruct b eqn:?
             end; try discriminate.
    + unfold bind, print, ret, raise, path_exists. cbn [fst snd fs].
      repeat match goal with
             | |- context [if ?b then _ else _] => destruct b eqn:?
             end; try discriminate; intros [= <- _]; done.
  - unfold bind, print, ret, raise. cbn [fst snd].
    repeat match goal with
           | |- context [if ?b then _ else _] => destruct b eqn:?
           end; try discriminate.
Qed.

Lemma for_fold_ok_bad_empty spawn args subject_label timepoints good_tps w
    tps' w' :
  for_fold timepoints (timepoint spawn args subject_label) (good_tps, []) w
    = (Ok tps', w') →
  tps'.2 = [].
Proof.
  revert good_tps w. induction timepoints as [|tp tl IH]; intros good_tps w.
  - cbn. by intros [= <- _].
  - cbn [for_fold]. unfold bind.
    destruct (timepoint spawn args subject_label tp (good_tps, []) w)
      as [[[g b]|e] w1] eqn:Htp; [|done].
    apply timepoint_ok_bad_empty in Htp. cbn in Htp. subst b. apply IH.
Qed.

(** The first timepoint whose computation fails ends the loop, wherever it
    stands in the list: when the timepoints before it went through without an
    error, the error names the label of the failing timepoint only, its
    command is the last one started, and the timepoints after it are not
    looked at. *)
Theorem timepoints_loop_stops_at_first_failure spawn args subject_label
    before tp others w tps w1
  (Hbefore : for_fold before (timepoint spawn args subject_label) ([], []) w
             = (Ok tps, w1))
  (Htodo : both_exist (fs w1)
             (surf_dir (output_dir args) subject_label (tp_label tp)) = false)
  (Hfail : computation_fails
             (spawn (recon_all tp subject_label (output_dir args) (n_cpus args))
                (delete "DEBUG" (environ w1)) (fs w1))
             (surf_dir (output_dir args) subject_label (tp_label tp))) :
  ∃ w',
    timepoints_loop spawn args subject_label (before ++ tp :: others) w =
    (Raise (Exception ("Timpoints failed for " +:+ subject_label +:+ ": " +:+
                       tp_label tp)), w') ∧
    popen_calls w' =
      popen_calls w1 ++
      [(recon_all tp subject_label (output_dir args) (n_cpus args),
        delete "DEBUG" (environ w1))].
Proof.
  pose proof (for_fold_ok_bad_empty _ _ _ _ _ _ _ _ Hbefore) as Hbad.
  destruct tps as [good_tps bad_tps]. cbn in Hbad. subst bad_tps.
  destruct (timepoint_fails spawn args subject_label tp good_tps [] w1
              Htodo Hfail) as (w' & Htp & Hcalls & _).
  exists w'. split; [|done].
  unfold timepoints_loop. rewrite for_fold_app. unfold bind at 1.
  rewrite Hbefore. cbn [for_fold]. unfold bind at 1. by rewrite Htp.
Qed.

Lemma timepoints_loop_stops_at_first_failure_witness :
  let args := Demo.args0 ["03"] in
  let w1 := (for_fold ["sub-03_ses-1"] (timepoint Demo.spawn_first args "03")
               ([], []) Demo.w0).2 in
  ∃ w',
    timepoints_loop Demo.spawn_first args "03"
      (["sub-03_ses-1"] ++ "sub-03_ses-2" :: ["sub-03_ses-3"]) Demo.w0 =
    (Raise (Exception ("Timpoints failed for " +:+ "03" +:+ ": " +:+
                       tp_label "sub-03_ses-2")), w') ∧
    popen_calls w' =
      popen_calls w1 ++
      [(recon_all "sub-03_ses-2" "03" (output_dir args) (n_cpus args),
        delete "DEBUG" (environ w1))].
Proof.
  intros args w1.
  apply (timepoints_loop_stops_at_first_failure Demo.spawn_first args "03"
           ["sub-03_ses-1"] "sub-03_ses-2" ["sub-03_ses-3"] Demo.w0
           (["1"], []) w1).
  - vm_compute. reflexivity.
  - vm_compute. reflexivity.
  - left. vm_compute. discriminate.
Defined.

(** ** Plain labels that start another *)

(** For labels the glob pattern takes as written (no [[] and no [/]), the
    pattern of a subject also matches the entries of every subject whose
    label starts with its label: what is found for [<label><more>] is found
    for [<label>] too, entries and timepoints alike. *)
Theorem discover_plain_label_prefix fs output_dir subject_label more
  (Hlabel : glob_plain subject_label) (Hmore : glob_plain more) :
  long_entries fs output_dir (subject_label +:+ more)
    ⊆ long_entries fs output_dir subject_label ∧
  discover fs output_dir (subject_label +:+ more)
    ⊆ discover fs output_dir subject_label.
Proof. apply long_entries_label_prefix. Qed.

Lemma discover_plain_label_prefix_witness :
  glob_plain "0" ∧ glob_plain "5" ∧
  long_entries Demo.fs0 "/out" ("0" +:+ "5") ⊆ long_entries Demo.fs0 "/out" "0" ∧
  discover Demo.fs0 "/out" ("0" +:+ "5") ⊆ discover Demo.fs0 "/out" "0".
Proof.
  assert (H0 : glob_plain "0") by (split; reflexivity).
  assert (H5 : glob_plain "5") by (split; reflexivity).
  split; [exact H0|]. split; [exact H5|].
  exact (discover_plain_label_prefix Demo.fs0 "/out" "0" "5" H0 H5).
Defined.
